(** * ILI9341 resistive touch panel driver (bit-banged serial link)

    A shallow embedding of [Core/Src/ILI9341_Touchscreen.c]: the transport
    functions [TP_Read] and [TP_Write], the sampling routine
    [TP_Read_Coordinates] and the press query [TP_Touchpad_Pressed].

    The driver talks to the outside world only through the two HAL calls
    [HAL_GPIO_WritePin] and [HAL_GPIO_ReadPin].  A driver function is
    therefore a finite tree of pin operations (type [io]); running such a
    tree against a simulated touch controller (type [device]) threads the
    state of the GPIO lines and a log of everything that happened on them. *)

From Stdlib Require Import ZArith List Lia Bool.
Import ListNotations.
Local Open Scope Z_scope.

(** ** Fixed-width integers of the C source *)

Module CInt.

(** Conversion to [uint8_t], [uint16_t] and [uint32_t]: reduction modulo
    2^8, 2^16 and 2^32. *)
Definition to_u8 (z : Z) : Z := z mod 2 ^ 8.
Definition to_u16 (z : Z) : Z := z mod 2 ^ 16.
Definition to_u32 (z : Z) : Z := z mod 2 ^ 32.

(** [int] is 32 bits wide on the Cortex-M target.  Arithmetic on it is
    written with two's-complement wrap-around. *)
Definition to_int (z : Z) : Z := (z + 2 ^ 31) mod 2 ^ 32 - 2 ^ 31.

Definition int_sub (a b : Z) : Z := to_int (a - b).
Definition int_mul (a b : Z) : Z := to_int (a * b).
(** C division truncates towards zero. *)
Definition int_quot (a b : Z) : Z := to_int (Z.quot a b).

End CInt.
Export CInt.

(** ** GPIO lines, the simulated controller and driver programs *)

(** The three lines the driver drives and the two it samples. *)
Inductive out_pin : Type := TP_CLK | TP_MOSI | TP_CS.
Inductive in_pin : Type := TP_IRQ | TP_MISO.

(** [GPIO_PinState] of the HAL: [GPIO_PIN_RESET] is 0, [GPIO_PIN_SET] is 1. *)
Inductive GPIO_PinState : Type := GPIO_PIN_RESET | GPIO_PIN_SET.

Definition pin_value (s : GPIO_PinState) : Z :=
  match s with GPIO_PIN_RESET => 0 | GPIO_PIN_SET => 1 end.

(** One operation on the lines, as seen from outside the microcontroller. *)
Inductive event : Type :=
| EvWrite (p : out_pin) (s : GPIO_PinState)
| EvRead (p : in_pin) (s : GPIO_PinState).

(** Levels of the output lines and the history of the link, newest first. *)
Record gpio : Type := mkGpio {
  clk : GPIO_PinState;
  mosi : GPIO_PinState;
  cs : GPIO_PinState;
  trace : list event
}.

Definition set_pin (p : out_pin) (s : GPIO_PinState) (w : gpio) : gpio :=
  match p with
  | TP_CLK => mkGpio s (mosi w) (cs w) (trace w)
  | TP_MOSI => mkGpio (clk w) s (cs w) (trace w)
  | TP_CS => mkGpio (clk w) (mosi w) s (trace w)
  end.

Definition log (e : event) (w : gpio) : gpio :=
  mkGpio (clk w) (mosi w) (cs w) (e :: trace w).

(** The touch controller: what an input line reads, given the present levels
    of the output lines and everything that happened so far. *)
Definition device : Type := gpio -> in_pin -> GPIO_PinState.

(** The four divisions of [TP_Read_Coordinates], by source line. *)
Inductive division : Type :=
| AverageX      (* calculating_x /= counted_samples *)
| AverageY      (* calculating_y /= counted_samples *)
| TranslateX    (* rawx / X_TRANSLATION *)
| TranslateY.   (* rawy / Y_TRANSLATION *)

Inductive fault : Type :=
| DivisionByZero (d : division)   (* undefined behaviour in C *)
| OutOfFuel.                      (* a loop of the model ran out of fuel *)

(** Driver programs: trees of pin operations. *)
Inductive io (A : Type) : Type :=
| Ret (a : A)
| Out (p : out_pin) (s : GPIO_PinState) (k : io A)
| In (p : in_pin) (k : GPIO_PinState -> io A)
| Stop (f : fault).

Arguments Ret {A} a.
Arguments Out {A} p s k.
Arguments In {A} p k.
Arguments Stop {A} f.

Fixpoint bind {A B : Type} (m : io A) (f : A -> io B) : io B :=
  match m with
  | Ret a => f a
  | Out p s k => Out p s (bind k f)
  | In p k => In p (fun v => bind (k v) f)
  | Stop e => Stop e
  end.

Declare Scope io_scope.
Delimit Scope io_scope with io.
Notation "x <- m ;; k" := (bind m (fun x => k))
  (at level 61, m at next level, right associativity) : io_scope.
Notation "' p <- m ;; k" := (bind m (fun p => k))
  (at level 61, p pattern, m at next level, right associativity) : io_scope.
Notation "m ;; k" := (bind m (fun _ => k))
  (at level 61, right associativity) : io_scope.
Local Open Scope io_scope.

Definition HAL_GPIO_WritePin (p : out_pin) (s : GPIO_PinState) : io unit :=
  Out p s (Ret tt).

Definition HAL_GPIO_ReadPin (p : in_pin) : io GPIO_PinState :=
  In p (fun v => Ret v).

(** Result of running a program. *)
Inductive outcome (A : Type) : Type :=
| Done (a : A) (w : gpio)
| Failed (f : fault).

Arguments Done {A} a w.
Arguments Failed {A} f.

Fixpoint run {A : Type} (dev : device) (m : io A) (w : gpio) : outcome A :=
  match m with
  | Ret a => Done a w
  | Out p s k => run dev k (log (EvWrite p s) (set_pin p s w))
  | In p k => let v := dev w p in run dev (k v) (log (EvRead p v) w)
  | Stop e => Failed e
  end.

(** [while (cond) body], with the number of completed iterations as a ghost
    result.  [fuel] bounds the number of evaluations of the condition. *)
Fixpoint while {St : Type} (fuel : nat) (cond : St -> io bool)
    (body : St -> io St) (n : nat) (s : St) : io (nat * St) :=
  match fuel with
  | O => Stop OutOfFuel
  | S fuel' =>
      c <- cond s ;;
      if c : bool then s' <- body s ;; while fuel' cond body (S n) s'
      else Ret (n, s)
  end.

(** ** Serial transport *)

(** [uint16_t TP_Read(void)].  The loop state is the pair [(i, value)]. *)
Definition TP_Read_cond (st : Z * Z) : io bool :=
  Ret (0 <? fst st).

Definition TP_Read_body (st : Z * Z) : io (Z * Z) :=
  let '(i, value) := st in
  let value := to_u16 (Z.shiftl value 1) in
  HAL_GPIO_WritePin TP_CLK GPIO_PIN_SET ;;
  HAL_GPIO_WritePin TP_CLK GPIO_PIN_RESET ;;
  b <- HAL_GPIO_ReadPin TP_MISO ;;
  let value := if negb (pin_value b =? 0) then to_u16 (value + 1) else value in
  Ret (to_u8 (i - 1), value).

Definition TP_Read_loop : io (nat * (Z * Z)) :=
  while 17 TP_Read_cond TP_Read_body 0 (16, 0).

Definition TP_Read : io Z :=
  r <- TP_Read_loop ;;
  Ret (snd (snd r)).

(** [void TP_Write(uint8_t value)]. *)
Definition TP_Write_cond (st : Z * Z) : io bool :=
  Ret (0 <? fst st).

Definition TP_Write_body (st : Z * Z) : io (Z * Z) :=
  let '(i, value) := st in
  (if negb (Z.land value 128 =? 0)
   then HAL_GPIO_WritePin TP_MOSI GPIO_PIN_SET
   else HAL_GPIO_WritePin TP_MOSI GPIO_PIN_RESET) ;;
  let value := to_u8 (Z.shiftl value 1) in
  HAL_GPIO_WritePin TP_CLK GPIO_PIN_SET ;;
  HAL_GPIO_WritePin TP_CLK GPIO_PIN_RESET ;;
  Ret (to_u8 (i - 1), value).

Definition TP_Write_loop (value : Z) : io (nat * (Z * Z)) :=
  while 9 TP_Write_cond TP_Write_body 0 (8, to_u8 value).

Definition TP_Write (value : Z) : io unit :=
  HAL_GPIO_WritePin TP_CLK GPIO_PIN_RESET ;;
  TP_Write_loop value ;;
  Ret tt.

(** ** Sampling and transform *)

(** Modelled from the spec: the constants of the header
    [ILI9341_Touchscreen.h], which is not among the sources.  They are
    parameters of the model; the transform being "integer arithmetic only",
    each of them is an [int] constant. *)
Record config : Type := mkConfig {
  NO_OF_POSITION_SAMPLES : Z;
  CMD_RDX : Z;
  CMD_RDY : Z;
  X_TRANSLATION : Z;
  Y_TRANSLATION : Z;
  X_OFFSET : Z;
  Y_OFFSET : Z;
  X_MAGNITUDE : Z;
  Y_MAGNITUDE : Z
}.

(** Modelled from the spec: the two status codes of the missing header; the
    status of a coordinate read is one of two distinct values, "Ok" and
    "Noisy". *)
Inductive status : Type := TOUCHPAD_DATA_OK | TOUCHPAD_DATA_NOISY.

(** Values given by the comment above [TP_Touchpad_Pressed]. *)
Definition TOUCHPAD_PRESSED : Z := 1.
Definition TOUCHPAD_NOT_PRESSED : Z := 0.

(** The local variables of [TP_Read_Coordinates]. *)
Record locals : Type := mkLocals {
  avg_x : Z;
  avg_y : Z;
  rawx : Z;
  rawy : Z;
  calculating_x : Z;
  calculating_y : Z;
  samples : Z;
  counted_samples : Z
}.

Definition locals_init (cfg : config) : locals :=
  mkLocals 0 0 0 0 0 0 (to_u32 (NO_OF_POSITION_SAMPLES cfg)) 0.

(** [(samples > 0) && (HAL_GPIO_ReadPin(TP_IRQ_PORT, TP_IRQ_PIN) == 0)]:
    the line is read only when the first operand holds. *)
Definition sampling_cond (l : locals) : io bool :=
  if 0 <? samples l
  then v <- HAL_GPIO_ReadPin TP_IRQ ;; Ret (pin_value v =? 0)
  else Ret false.

Definition sampling_body (cfg : config) (l : locals) : io locals :=
  TP_Write (CMD_RDY cfg) ;;
  ry <- TP_Read ;;
  let avg_y' := to_u32 (avg_y l + ry) in
  let calculating_y' := to_u32 (calculating_y l + ry) in
  TP_Write (CMD_RDX cfg) ;;
  rx <- TP_Read ;;
  let avg_x' := to_u32 (avg_x l + rx) in
  let calculating_x' := to_u32 (calculating_x l + rx) in
  Ret (mkLocals avg_x' avg_y' rx ry calculating_x' calculating_y'
         (to_u32 (samples l - 1)) (to_u32 (counted_samples l + 1))).

Definition sampling_loop (cfg : config) (l : locals) : io (nat * locals) :=
  while (S (Z.to_nat (samples l))) sampling_cond (sampling_body cfg) 0 l.

(** Lines 103 to 131: from function entry to the release of chip-select. *)
Definition TP_Read_Coordinates_sampling (cfg : config) : io locals :=
  HAL_GPIO_WritePin TP_CLK GPIO_PIN_SET ;;
  HAL_GPIO_WritePin TP_MOSI GPIO_PIN_SET ;;
  HAL_GPIO_WritePin TP_CS GPIO_PIN_SET ;;
  let l := locals_init cfg in
  HAL_GPIO_WritePin TP_CS GPIO_PIN_RESET ;;
  r <- sampling_loop cfg l ;;
  HAL_GPIO_WritePin TP_CS GPIO_PIN_SET ;;
  Ret (snd r).

(** Unsigned division ([uint32_t]) and [int] division; dividing by zero is
    undefined behaviour. *)
Definition udiv (d : division) (a b : Z) : io Z :=
  if b =? 0 then Stop (DivisionByZero d) else Ret (a / b).

Definition idiv (d : division) (a b : Z) : io Z :=
  if b =? 0 then Stop (DivisionByZero d) else Ret (int_quot a b).

(** [(counted_samples == NO_OF_POSITION_SAMPLES) &&
     (HAL_GPIO_ReadPin(TP_IRQ_PORT, TP_IRQ_PIN) == 0)]. *)
Definition validate_cond (cfg : config) (l : locals) : io bool :=
  if counted_samples l =? to_u32 (NO_OF_POSITION_SAMPLES cfg)
  then v <- HAL_GPIO_ReadPin TP_IRQ ;; Ret (pin_value v =? 0)
  else Ret false.

(** Lines 133 to 154: validation, averaging, negation and transform.
    [Coordinates] is the caller's array, returned with both cells written. *)
Definition TP_Read_Coordinates_validate (cfg : config)
    (Coordinates : Z * Z) (l : locals) : io ((Z * Z) * status) :=
  c <- validate_cond cfg l ;;
  if c : bool then
    cx <- udiv AverageX (calculating_x l) (counted_samples l) ;;
    cy <- udiv AverageY (calculating_y l) (counted_samples l) ;;
    let rx := to_u16 cx in
    let ry := to_u16 cy in
    let rx := to_u16 (int_mul rx (-1)) in
    let ry := to_u16 (int_mul ry (-1)) in
    qx <- idiv TranslateX rx (X_TRANSLATION cfg) ;;
    let Coordinates :=
      (to_u16 (int_mul (int_sub (int_sub 240 qx) (X_OFFSET cfg))
                       (X_MAGNITUDE cfg)), snd Coordinates) in
    qy <- idiv TranslateY ry (Y_TRANSLATION cfg) ;;
    let Coordinates :=
      (fst Coordinates,
       to_u16 (int_mul (int_sub qy (Y_OFFSET cfg)) (Y_MAGNITUDE cfg))) in
    Ret (Coordinates, TOUCHPAD_DATA_OK)
  else
    let Coordinates := (0, snd Coordinates) in
    let Coordinates := (fst Coordinates, 0) in
    Ret (Coordinates, TOUCHPAD_DATA_NOISY).

(** [uint8_t TP_Read_Coordinates(uint16_t Coordinates[2])]. *)
Definition TP_Read_Coordinates (cfg : config) (Coordinates : Z * Z)
    : io ((Z * Z) * status) :=
  l <- TP_Read_Coordinates_sampling cfg ;;
  TP_Read_Coordinates_validate cfg Coordinates l.

(** [uint8_t TP_Touchpad_Pressed(void)]. *)
Definition TP_Touchpad_Pressed : io Z :=
  v <- HAL_GPIO_ReadPin TP_IRQ ;;
  if pin_value v =? 0 then Ret TOUCHPAD_PRESSED else Ret TOUCHPAD_NOT_PRESSED.

(** ** Vocabulary of the specifications *)

(** The value an outcome carries, if any. *)
Definition result_of {A : Type} (o : outcome A) : option A :=
  match o with Done a _ => Some a | Failed _ => None end.

(** The line state an outcome ends in; [w] when there is none. *)
Definition world_of {A : Type} (o : outcome A) (w : gpio) : gpio :=
  match o with Done _ w' => w' | Failed _ => w end.

(** Weakest precondition of a run: the program ends without fault in a
    result and a line state that satisfy [Q]. *)
Definition wp {A : Type} (dev : device) (m : io A) (w : gpio)
    (Q : A -> gpio -> Prop) : Prop :=
  match run dev m w with
  | Done a w' => Q a w'
  | Failed _ => False
  end.

(** The values read from the input lines in a piece of history. *)
Fixpoint readings (evs : list event) : list (in_pin * GPIO_PinState) :=
  match evs with
  | [] => []
  | EvRead p v :: r => (p, v) :: readings r
  | EvWrite _ _ :: r => readings r
  end.

(** What happened on the lines between an earlier state [w] and a later
    state [w']. *)
Definition events_since (w w' : gpio) : list event :=
  firstn (length (trace w') - length (trace w)) (trace w').

(** Running a program from a list of input values alone, oldest first; the
    unused inputs are returned. *)
Fixpoint replay {A : Type} (m : io A) (ins : list (in_pin * GPIO_PinState))
    : option (A * list (in_pin * GPIO_PinState)) :=
  match m with
  | Ret a => Some (a, ins)
  | Out _ _ k => replay k ins
  | In _ k =>
      match ins with
      | [] => None
      | (_, v) :: rest => replay (k v) rest
      end
  | Stop _ => None
  end.

(** One iteration of a loop: the condition holds and the body runs. *)
Definition loop_step {St : Type} (dev : device) (cond : St -> io bool)
    (body : St -> io St) (a b : St * gpio) : Prop :=
  exists w1,
    run dev (cond (fst a)) (snd a) = Done true w1 /\
    run dev (body (fst a)) w1 = Done (fst b) (snd b).

(** The loop states met at the loop head after any number of iterations. *)
Inductive loop_reach {St : Type} (dev : device) (cond : St -> io bool)
    (body : St -> io St) (a : St * gpio) : St * gpio -> Prop :=
| reach_here : loop_reach dev cond body a a
| reach_next b c :
    loop_reach dev cond body a b ->
    loop_step dev cond body b c ->
    loop_reach dev cond body a c.

(** The counters of the sampling loop: completed plus remaining is the
    budget. *)
Definition budget_kept (cfg : config) (l : locals) : Prop :=
  counted_samples l + samples l = to_u32 (NO_OF_POSITION_SAMPLES cfg) /\
  0 <= samples l /\ 0 <= counted_samples l.

(** One command and its 16-bit answer, as in the sampling loop. *)
Definition exchange (cmd : Z) : io Z :=
  TP_Write cmd ;; TP_Read.

(** The press line reads asserted (low) whenever it is looked at. *)
Definition press_held (dev : device) : Prop :=
  forall w, dev w TP_IRQ = GPIO_PIN_RESET.

(** While selected, the controller answers command [cmd] with [R]. *)
Definition answers (dev : device) (cmd R : Z) : Prop :=
  forall w, cs w = GPIO_PIN_RESET ->
    result_of (run dev (exchange cmd) w) = Some R.

(** A line level as a bit, and a word assembled from bits, first bit in the
    most significant place. *)
Definition pin_bit (s : GPIO_PinState) : bool :=
  match s with GPIO_PIN_RESET => false | GPIO_PIN_SET => true end.

Definition assemble (bits : list GPIO_PinState) (acc : Z) : Z :=
  fold_left (fun a b => 2 * a + Z.b2z (pin_bit b)) bits acc.

(** The line activity of one bit of [TP_Read], newest first. *)
Definition read_bit_events (b : GPIO_PinState) : list event :=
  [EvRead TP_MISO b; EvWrite TP_CLK GPIO_PIN_RESET; EvWrite TP_CLK GPIO_PIN_SET].

(** The negation of line 142, and the two transforms of lines 146 and 147,
    on mathematical integers. *)
Definition negate16 (a : Z) : Z := (2 ^ 16 - a) mod 2 ^ 16.

Definition x_pixel (cfg : config) (x_raw : Z) : Z :=
  ((240 - Z.quot x_raw (X_TRANSLATION cfg)) - X_OFFSET cfg) * X_MAGNITUDE cfg.

Definition y_pixel (cfg : config) (y_raw : Z) : Z :=
  (Z.quot y_raw (Y_TRANSLATION cfg) - Y_OFFSET cfg) * Y_MAGNITUDE cfg.

(** ** Simulated controllers *)

Definition of_bit (b : bool) : GPIO_PinState :=
  if b then GPIO_PIN_SET else GPIO_PIN_RESET.

(** Number of data-in reads since the last data-out write. *)
Fixpoint miso_reads (tr : list event) : nat :=
  match tr with
  | [] => O
  | EvRead TP_MISO _ :: r => S (miso_reads r)
  | EvWrite TP_MOSI _ :: _ => O
  | _ :: r => miso_reads r
  end.

(** The last [n] bits driven on data-out, the newest in the lowest place. *)
Fixpoint last_command (n : nat) (tr : list event) {struct tr} : Z :=
  match n with
  | O => 0
  | S n' =>
      match tr with
      | [] => 0
      | EvWrite TP_MOSI s :: r => pin_value s + 2 * last_command n' r
      | _ :: r => last_command n r
      end
  end.

(** A controller under a steady press: it decodes the command byte it was
    sent and shifts out [Ry] for [CMD_RDY] and [Rx] otherwise, most
    significant bit first. *)
Definition controller (cfg : config) (Rx Ry : Z) : device :=
  fun w p =>
    match p with
    | TP_IRQ => GPIO_PIN_RESET
    | TP_MISO =>
        let R := if last_command 8 (trace w) =? to_u8 (CMD_RDY cfg)
                 then Ry else Rx in
        of_bit (Z.testbit R (15 - Z.of_nat (miso_reads (trace w))))
    end.

(** Number of reads of line [p] so far. *)
Fixpoint reads_of (p : in_pin) (tr : list event) : nat :=
  match tr with
  | [] => O
  | EvRead q _ :: r =>
      match p, q with
      | TP_IRQ, TP_IRQ | TP_MISO, TP_MISO => S (reads_of p r)
      | _, _ => reads_of p r
      end
  | EvWrite _ _ :: r => reads_of p r
  end.

(** A controller that plays back fixed sequences of line levels; a line reads
    low once its sequence is used up. *)
Definition scripted (irq miso : list GPIO_PinState) : device :=
  fun w p =>
    match p with
    | TP_IRQ => nth (reads_of TP_IRQ (trace w)) irq GPIO_PIN_RESET
    | TP_MISO => nth (reads_of TP_MISO (trace w)) miso GPIO_PIN_RESET
    end.

(** The 16 bits of a word, most significant first. *)
Definition word_bits (v : Z) : list GPIO_PinState :=
  map (fun k => of_bit (Z.testbit v (Z.of_nat k))) (rev (seq 0 16)).

(** Lines at rest before a call, with an empty history. *)
Definition idle : gpio :=
  mkGpio GPIO_PIN_RESET GPIO_PIN_RESET GPIO_PIN_SET [].

(** An example calibration with commands 0xD0 (X) and 0x90 (Y), for a
    given number of samples. *)
Definition sample_config (n : Z) : config :=
  mkConfig n 208 144 15 11 13 15 1 1.

(** A transparent calibration: no scaling, no offset. *)
Definition plain_config (n : Z) : config :=
  mkConfig n 208 144 1 1 0 0 1 1.

(** ** Vocabulary of the line protocol *)

(** The 8 bits of a byte, most significant first. *)
Definition byte_bits (v : Z) : list GPIO_PinState :=
  map (fun k => of_bit (Z.testbit v (Z.of_nat k))) (rev (seq 0 8)).

(** The line activity of one bit of [TP_Write], newest first. *)
Definition write_bit_events (b : GPIO_PinState) : list event :=
  [EvWrite TP_CLK GPIO_PIN_RESET; EvWrite TP_CLK GPIO_PIN_SET;
   EvWrite TP_MOSI b].

(** The levels read from the press line in a piece of history. *)
Fixpoint irq_levels (evs : list event) : list GPIO_PinState :=
  match evs with
  | [] => []
  | EvRead TP_IRQ v :: r => v :: irq_levels r
  | _ :: r => irq_levels r
  end.

(** The levels driven on chip-select in a piece of history. *)
Fixpoint cs_levels (evs : list event) : list GPIO_PinState :=
  match evs with
  | [] => []
  | EvWrite TP_CS s :: r => s :: cs_levels r
  | _ :: r => cs_levels r
  end.

(** A serial receiver on the clock and data-out lines: an 8-bit shift
    register that takes in the level of data-out at one kind of clock edge. *)
Inductive edge : Type := Rising | Falling.

Record receiver : Type := mkReceiver {
  rx_clk : GPIO_PinState;
  rx_mosi : GPIO_PinState;
  rx_reg : Z
}.

Definition latches (e : edge) (before after : GPIO_PinState) : bool :=
  match e, before, after with
  | Rising, GPIO_PIN_RESET, GPIO_PIN_SET => true
  | Falling, GPIO_PIN_SET, GPIO_PIN_RESET => true
  | _, _, _ => false
  end.

Definition receive (e : edge) (ev : event) (r : receiver) : receiver :=
  match ev with
  | EvWrite TP_MOSI s => mkReceiver (rx_clk r) s (rx_reg r)
  | EvWrite TP_CLK s =>
      mkReceiver s (rx_mosi r)
        (if latches e (rx_clk r) s
         then (2 * rx_reg r + Z.b2z (pin_bit (rx_mosi r))) mod 2 ^ 8
         else rx_reg r)
  | _ => r
  end.

(** The receiver after a piece of history (newest event first). *)
Definition received (e : edge) (evs : list event) (r : receiver) : receiver :=
  fold_right (receive e) r evs.

(** The level of an output line, and the level a piece of history leaves
    it at: that of the newest write to it, or [d] if there is none. *)
Definition level (p : out_pin) (w : gpio) : GPIO_PinState :=
  match p with TP_CLK => clk w | TP_MOSI => mosi w | TP_CS => cs w end.

Definition same_pin (p q : out_pin) : bool :=
  match p, q with
  | TP_CLK, TP_CLK | TP_MOSI, TP_MOSI | TP_CS, TP_CS => true
  | _, _ => false
  end.

Fixpoint last_level (p : out_pin) (evs : list event) (d : GPIO_PinState)
    : GPIO_PinState :=
  match evs with
  | [] => d
  | EvWrite q s :: r => if same_pin p q then s else last_level p r d
  | EvRead _ _ :: r => last_level p r d
  end.

(** A piece of history of [len] events, [miso] of them reads of data-in,
    that neither looks at the press line nor drives chip-select. *)
Definition quiet_history (len miso : nat) (evs : list event) : Prop :=
  length evs = len /\ irq_levels evs = [] /\ cs_levels evs = [] /\
  reads_of TP_MISO evs = miso.

(** The line state in which the sampling loop starts: clock and data-out
    high, chip-select pulsed high then low (lines 103 to 114). *)
Definition armed (w : gpio) : gpio :=
  log (EvWrite TP_CS GPIO_PIN_RESET)
    (set_pin TP_CS GPIO_PIN_RESET
       (log (EvWrite TP_CS GPIO_PIN_SET)
          (set_pin TP_CS GPIO_PIN_SET
             (log (EvWrite TP_MOSI GPIO_PIN_SET)
                (set_pin TP_MOSI GPIO_PIN_SET
                   (log (EvWrite TP_CLK GPIO_PIN_SET)
                      (set_pin TP_CLK GPIO_PIN_SET w))))))).

(** ** Integer facts *)

Section IntegerFacts.

Lemma to_u16_range z : 0 <= to_u16 z < 2 ^ 16.
Proof. unfold to_u16. apply Z.mod_pos_bound. lia. Qed.

Lemma to_u32_range z : 0 <= to_u32 z < 2 ^ 32.
Proof. unfold to_u32. apply Z.mod_pos_bound. lia. Qed.

Lemma to_u8_small z : 0 <= z < 2 ^ 8 -> to_u8 z = z.
Proof. intros H. unfold to_u8. now apply Z.mod_small. Qed.

Lemma to_u16_small z : 0 <= z < 2 ^ 16 -> to_u16 z = z.
Proof. intros H. unfold to_u16. now apply Z.mod_small. Qed.

Lemma to_u32_small z : 0 <= z < 2 ^ 32 -> to_u32 z = z.
Proof. intros H. unfold to_u32. now apply Z.mod_small. Qed.

Lemma to_int_small z : - 2 ^ 31 <= z < 2 ^ 31 -> to_int z = z.
Proof. intros H. unfold to_int. rewrite Z.mod_small; lia. Qed.

(** Wrapping an [int] changes it by a multiple of 2^32, hence of 2^16. *)
Lemma to_int_shift z : exists k, to_int z = z + 2 ^ 16 * k.
Proof.
  unfold to_int.
  exists (- 2 ^ 16 * ((z + 2 ^ 31) / 2 ^ 32)).
  pose proof (Z.div_mod (z + 2 ^ 31) (2 ^ 32) ltac:(lia)) as E.
  replace (2 ^ 16 * (- 2 ^ 16 * ((z + 2 ^ 31) / 2 ^ 32)))
    with (- (2 ^ 32 * ((z + 2 ^ 31) / 2 ^ 32))) by (change (2 ^ 32) with (2 ^ 16 * 2 ^ 16); ring).
  lia.
Qed.

Lemma to_u16_shift z k : to_u16 (z + 2 ^ 16 * k) = to_u16 z.
Proof.
  unfold to_u16. rewrite (Z.mul_comm (2 ^ 16) k). apply Z_mod_plus_full.
Qed.

Lemma to_u16_to_int z : to_u16 (to_int z) = to_u16 z.
Proof. destruct (to_int_shift z) as [k ->]. apply to_u16_shift. Qed.

(** Line 142: multiplying a [uint16_t] by -1 and storing it back. *)
Lemma negate_wraps a : to_u16 (int_mul a (-1)) = negate16 a.
Proof.
  unfold int_mul, negate16. rewrite to_u16_to_int.
  replace (a * -1) with (2 ^ 16 - a + 2 ^ 16 * (-1)) by ring.
  apply to_u16_shift.
Qed.

Lemma negate16_range a : 0 <= negate16 a < 2 ^ 16.
Proof. unfold negate16. apply Z.mod_pos_bound. lia. Qed.

(** The quotient of a 16-bit value by an [int] fits an [int]. *)
Lemma int_quot_small a b : 0 <= a < 2 ^ 16 -> int_quot a b = Z.quot a b.
Proof.
  intros H. unfold int_quot. apply to_int_small.
  assert (Hb : b = 0 \/ 0 < b \/ b < 0) by lia.
  destruct Hb as [-> | [Hb | Hb]].
  - replace (Z.quot a 0) with 0 by (destruct a; reflexivity). lia.
  - rewrite Z.quot_div_nonneg by lia.
    pose proof (Z.div_pos a b ltac:(lia) Hb).
    pose proof (Z.div_le_upper_bound a b a Hb ltac:(nia)). lia.
  - replace b with (- (- b)) by lia. rewrite Z.quot_opp_r by lia.
    rewrite Z.quot_div_nonneg by lia.
    pose proof (Z.div_pos a (- b) ltac:(lia) ltac:(lia)).
    pose proof (Z.div_le_upper_bound a (- b) a ltac:(lia) ltac:(nia)). lia.
Qed.

(** Lines 146 and 147: the stored coordinate is the transform of the
    negated average, reduced to 16 bits. *)
Lemma x_store cfg r :
  0 <= r < 2 ^ 16 ->
  to_u16 (int_mul (int_sub (int_sub 240 (int_quot r (X_TRANSLATION cfg)))
                           (X_OFFSET cfg)) (X_MAGNITUDE cfg))
  = to_u16 (x_pixel cfg r).
Proof.
  intros H. rewrite int_quot_small by exact H.
  unfold int_mul, int_sub, x_pixel.
  set (q := Z.quot r (X_TRANSLATION cfg)).
  rewrite to_u16_to_int.
  destruct (to_int_shift (240 - q)) as [k1 E1]. rewrite E1.
  destruct (to_int_shift (240 - q + 2 ^ 16 * k1 - X_OFFSET cfg)) as [k2 E2].
  rewrite E2.
  replace ((240 - q + 2 ^ 16 * k1 - X_OFFSET cfg + 2 ^ 16 * k2) * X_MAGNITUDE cfg)
    with ((240 - q - X_OFFSET cfg) * X_MAGNITUDE cfg
          + 2 ^ 16 * ((k1 + k2) * X_MAGNITUDE cfg)) by ring.
  apply to_u16_shift.
Qed.

Lemma y_store cfg r :
  0 <= r < 2 ^ 16 ->
  to_u16 (int_mul (int_sub (int_quot r (Y_TRANSLATION cfg)) (Y_OFFSET cfg))
                  (Y_MAGNITUDE cfg))
  = to_u16 (y_pixel cfg r).
Proof.
  intros H. rewrite int_quot_small by exact H.
  unfold int_mul, int_sub, y_pixel.
  set (q := Z.quot r (Y_TRANSLATION cfg)).
  rewrite to_u16_to_int.
  destruct (to_int_shift (q - Y_OFFSET cfg)) as [k E]. rewrite E.
  replace ((q - Y_OFFSET cfg + 2 ^ 16 * k) * Y_MAGNITUDE cfg)
    with ((q - Y_OFFSET cfg) * Y_MAGNITUDE cfg + 2 ^ 16 * (k * Y_MAGNITUDE cfg))
    by ring.
  apply to_u16_shift.
Qed.

End IntegerFacts.

(** ** Rules for running programs *)

Section RunRules.

Variable dev : device.

Lemma run_bind {A B} (m : io A) (f : A -> io B) w :
  run dev (bind m f) w =
  match run dev m w with
  | Done a w' => run dev (f a) w'
  | Failed e => Failed e
  end.
Proof.
  revert w. induction m as [a | p s k IH | p k IH | e]; intros w; simpl; auto.
Qed.

Lemma wp_bind {A B} (m : io A) (f : A -> io B) w Q :
  wp dev m w (fun a w' => wp dev (f a) w' Q) -> wp dev (bind m f) w Q.
Proof.
  unfold wp. rewrite run_bind. destruct (run dev m w); auto.
Qed.

Lemma wp_mono {A} (m : io A) w (Q Q' : A -> gpio -> Prop) :
  wp dev m w Q -> (forall a w', Q a w' -> Q' a w') -> wp dev m w Q'.
Proof.
  unfold wp. destruct (run dev m w); auto.
Qed.

Lemma wp_done {A} (m : io A) w Q :
  wp dev m w Q -> exists a w', run dev m w = Done a w' /\ Q a w'.
Proof.
  unfold wp. destruct (run dev m w) as [a w' | e]; [eauto | tauto].
Qed.

Lemma done_wp {A} (m : io A) w a w' (Q : A -> gpio -> Prop) :
  run dev m w = Done a w' -> Q a w' -> wp dev m w Q.
Proof. unfold wp. now intros ->. Qed.

Lemma wp_write_bind {B} p s (f : unit -> io B) w Q :
  wp dev (f tt) (log (EvWrite p s) (set_pin p s w)) Q ->
  wp dev (bind (HAL_GPIO_WritePin p s) f) w Q.
Proof. intros H. exact H. Qed.

Lemma wp_read_bind {B} p (f : GPIO_PinState -> io B) w Q :
  wp dev (f (dev w p)) (log (EvRead p (dev w p)) w) Q ->
  wp dev (bind (HAL_GPIO_ReadPin p) f) w Q.
Proof. intros H. exact H. Qed.

(** Loop rule: an invariant [I] indexed by the iteration count and a
    variant [V] that every iteration decreases. *)
Lemma wp_while {St} (cond : St -> io bool) (body : St -> io St)
    (I : nat -> St -> gpio -> Prop) (V : St -> nat)
    (Q : nat * St -> gpio -> Prop) :
  (forall n s w, I n s w ->
     wp dev (cond s) w (fun c w1 =>
       if c : bool
       then wp dev (body s) w1 (fun s' w2 => I (S n) s' w2 /\ (V s' < V s)%nat)
       else Q (n, s) w1)) ->
  forall fuel n s w,
    I n s w -> (V s < fuel)%nat -> wp dev (while fuel cond body n s) w Q.
Proof.
  intros Hstep fuel. induction fuel as [| fuel IH]; intros n s w HI HV.
  - lia.
  - simpl. apply wp_bind.
    eapply wp_mono; [apply (Hstep n s w HI) |].
    intros [|] w1 H; simpl.
    + apply wp_bind. eapply wp_mono; [exact H |].
      intros s' w2 [HI' HV']. apply IH; [exact HI' | lia].
    + exact H.
Qed.

(** Every state returned by a loop is reached by iterating from the start. *)
Lemma while_reach {St} (cond : St -> io bool) (body : St -> io St) :
  forall fuel n s w n' s' w',
    run dev (while fuel cond body n s) w = Done (n', s') w' ->
    exists w'', loop_reach dev cond body (s, w) (s', w'') /\
                run dev (cond s') w'' = Done false w'.
Proof.
  intros fuel n s w n' s' w' H.
  assert (G : forall a, loop_reach dev cond body a (s, w) ->
            exists w'', loop_reach dev cond body a (s', w'') /\
                        run dev (cond s') w'' = Done false w').
  2:{ apply G. constructor. }
  revert n s w H.
  induction fuel as [| fuel IH]; intros n s w H a Ha; simpl in H.
  - discriminate.
  - rewrite run_bind in H.
    destruct (run dev (cond s) w) as [c w1 |] eqn:Ec; [| discriminate].
    destruct c.
    + rewrite run_bind in H.
      destruct (run dev (body s) w1) as [s1 w2 |] eqn:Eb; [| discriminate].
      apply (IH _ _ _ H).
      eapply reach_next; [exact Ha |].
      exists w1. simpl. auto.
    + simpl in H. inversion H; subst. eauto.
Qed.

End RunRules.

(** ** The serial transport *)

(** Symbolic execution of the pin operations at the head of a program. *)
Ltac run_step :=
  unfold wp;
  cbn [run bind HAL_GPIO_WritePin HAL_GPIO_ReadPin fst snd
       cs mosi clk trace log set_pin].

Section Transport.

Variable dev : device.

Lemma assemble_snoc bits b acc :
  assemble (bits ++ [b]) acc = 2 * assemble bits acc + Z.b2z (pin_bit b).
Proof. unfold assemble. rewrite fold_left_app. reflexivity. Qed.

(** What one run of the bit loop of [TP_Write] does. *)
Lemma TP_Write_loop_wp v w :
  wp dev (TP_Write_loop v) w (fun r w' =>
    fst r = 8%nat /\ cs w' = cs w /\
    exists evs, trace w' = evs ++ trace w /\ length evs = 24%nat /\
                readings evs = []).
Proof.
  unfold TP_Write_loop.
  apply (wp_while dev TP_Write_cond TP_Write_body
    (fun n s w' =>
       Z.of_nat n + fst s = 8 /\ 0 <= fst s /\ cs w' = cs w /\
       exists evs, trace w' = evs ++ trace w /\ length evs = (3 * n)%nat /\
                   readings evs = [])
    (fun s => Z.to_nat (fst s))).
  - intros n [i value] w0 (Hn & Hi & Hcs & evs & Ht & Hl & Hr).
    cbn [fst snd] in *. unfold TP_Write_cond, TP_Write_body. run_step.
    destruct (0 <? i) eqn:Ei.
    + apply Z.ltb_lt in Ei.
      assert (Eu : to_u8 (i - 1) = i - 1) by (apply to_u8_small; lia).
      rewrite Eu.
      destruct (Z.land value 128 =? 0); cbn [negb]; run_step;
        (split; [split; [lia | split; [lia | split; [assumption |]]] | lia];
         eexists (_ :: _ :: _ :: evs); rewrite Ht;
         split; [reflexivity | split; [cbn [length]; lia | exact Hr]]).
    + apply Z.ltb_ge in Ei.
      assert (n = 8%nat) by lia. subst n.
      split; [reflexivity | split; [assumption |]]. exists evs. auto.
  - simpl. repeat split; try lia. exists []. auto.
  - simpl. lia.
Qed.

Lemma TP_Write_wp v w :
  wp dev (TP_Write v) w (fun _ w' =>
    cs w' = cs w /\
    exists evs, trace w' = evs ++ trace w /\ length evs = 25%nat /\
                readings evs = []).
Proof.
  unfold TP_Write. apply wp_bind. run_step.
  apply wp_bind.
  eapply wp_mono; [apply TP_Write_loop_wp |].
  intros r w' (_ & Hcs & evs & Ht & Hl & Hr). run_step.
  split; [exact Hcs |].
  exists (evs ++ [EvWrite TP_CLK GPIO_PIN_RESET]).
  rewrite Ht, <- app_assoc. cbn [app trace]. repeat split.
  - rewrite length_app. cbn [length]. lia.
  - clear - Hr. induction evs as [| [p s | p s] evs IH]; simpl in *;
      [reflexivity | auto | discriminate].
Qed.

(** What one run of the bit loop of [TP_Read] does: 16 bits, each a clock
    pulse followed by one sample of data-in, assembled high bit first. *)
Lemma TP_Read_loop_wp w :
  wp dev TP_Read_loop w (fun r w' =>
    fst r = 16%nat /\ cs w' = cs w /\ mosi w' = mosi w /\
    exists bits, length bits = 16%nat /\
      trace w' = flat_map read_bit_events (rev bits) ++ trace w /\
      snd (snd r) = assemble bits 0 /\ 0 <= snd (snd r) < 2 ^ 16).
Proof.
  unfold TP_Read_loop.
  apply (wp_while dev TP_Read_cond TP_Read_body
    (fun n s w' =>
       Z.of_nat n + fst s = 16 /\ 0 <= fst s /\ cs w' = cs w /\
       mosi w' = mosi w /\
       exists bits, length bits = n /\
         trace w' = flat_map read_bit_events (rev bits) ++ trace w /\
         snd s = assemble bits 0 /\ 0 <= snd s < 2 ^ Z.of_nat n)
    (fun s => Z.to_nat (fst s))).
  - intros n [i value] w0 (Hn & Hi & Hcs & Hmo & bits & Hl & Ht & Hv & Hb).
    cbn [fst snd] in *. unfold TP_Read_cond, TP_Read_body. run_step.
    destruct (0 <? i) eqn:Ei.
    + apply Z.ltb_lt in Ei.
      assert (Eu : to_u8 (i - 1) = i - 1) by (apply to_u8_small; lia).
      rewrite Eu.
      set (b := dev _ TP_MISO).
      assert (Hp : 2 ^ Z.of_nat (S n) = 2 * 2 ^ Z.of_nat n).
      { rewrite Nat2Z.inj_succ, Z.pow_succ_r by lia. reflexivity. }
      assert (Hle : 2 ^ Z.of_nat (S n) <= 2 ^ 16).
      { apply Z.pow_le_mono_r; lia. }
      assert (Es : to_u16 (Z.shiftl value 1) = 2 * value).
      { rewrite Z.shiftl_mul_pow2 by lia. change (2 ^ 1) with 2.
        rewrite to_u16_small; lia. }
      rewrite Es.
      assert (Ev : (if negb (pin_value b =? 0) then to_u16 (2 * value + 1)
                    else 2 * value)
                   = 2 * value + Z.b2z (pin_bit b)).
      { clearbody b.
        destruct b; cbn [pin_value pin_bit Z.b2z Z.eqb negb];
          [lia | rewrite to_u16_small; lia]. }
      rewrite Ev.
      split; [| lia].
      split; [lia | split; [lia | split; [assumption | split; [assumption |]]]].
      exists (bits ++ [b]). repeat split.
      * rewrite length_app. cbn [length]. lia.
      * rewrite rev_app_distr. cbn [rev app flat_map read_bit_events].
        rewrite Ht. reflexivity.
      * rewrite assemble_snoc, <- Hv. reflexivity.
      * destruct (pin_bit b); cbn [Z.b2z]; lia.
      * destruct (pin_bit b); cbn [Z.b2z]; lia.
    + apply Z.ltb_ge in Ei.
      assert (E16 : n = 16%nat) by lia. rewrite <- Hl in Hb. rewrite Hl in *.
      rewrite E16 in *. change (Z.of_nat 16) with 16 in Hb.
      repeat split; try assumption; try lia.
      exists bits. repeat split; try assumption; try lia.
  - simpl. repeat split; try lia. exists []. simpl. repeat split; lia.
  - simpl. lia.
Qed.

Lemma TP_Read_wp w :
  wp dev TP_Read w (fun v w' =>
    cs w' = cs w /\ mosi w' = mosi w /\ 0 <= v < 2 ^ 16 /\
    exists bits, length bits = 16%nat /\
      trace w' = flat_map read_bit_events (rev bits) ++ trace w /\
      v = assemble bits 0).
Proof.
  unfold TP_Read. apply wp_bind.
  eapply wp_mono; [apply TP_Read_loop_wp |].
  intros r w' (_ & Hcs & Hmo & bits & Hl & Ht & Hv & Hb). run_step.
  repeat split; try assumption; try lia. exists bits. auto.
Qed.

End Transport.

(** ** The sampling loop *)

Section Sampling.

Variable dev : device.
Variable cfg : config.

Lemma wp_elim {A} (m : io A) w (Q : A -> gpio -> Prop) a w' :
  wp dev m w Q -> run dev m w = Done a w' -> Q a w'.
Proof. unfold wp. intros H E. rewrite E in H. exact H. Qed.

(** One round of the loop: a Y exchange, an X exchange, the counters. *)
Lemma sampling_body_wp l w :
  wp dev (sampling_body cfg l) w (fun l' w' =>
    cs w' = cs w /\
    samples l' = to_u32 (samples l - 1) /\
    counted_samples l' = to_u32 (counted_samples l + 1) /\
    exists rx ry,
      0 <= rx < 2 ^ 16 /\ 0 <= ry < 2 ^ 16 /\
      calculating_x l' = to_u32 (calculating_x l + rx) /\
      calculating_y l' = to_u32 (calculating_y l + ry)).
Proof.
  unfold sampling_body.
  apply wp_bind. eapply wp_mono; [apply TP_Write_wp |].
  intros _ w1 (Hcs1 & _).
  apply wp_bind. eapply wp_mono; [apply TP_Read_wp |].
  intros ry w2 (Hcs2 & _ & Hry & _).
  apply wp_bind. eapply wp_mono; [apply TP_Write_wp |].
  intros _ w3 (Hcs3 & _).
  apply wp_bind. eapply wp_mono; [apply TP_Read_wp |].
  intros rx w4 (Hcs4 & _ & Hrx & _).
  run_step. cbn [samples counted_samples calculating_x calculating_y].
  split; [congruence |]. split; [reflexivity |]. split; [reflexivity |].
  exists rx, ry. auto.
Qed.

Lemma budget_kept_init : budget_kept cfg (locals_init cfg).
Proof.
  unfold budget_kept, locals_init. cbn [samples counted_samples].
  pose proof (to_u32_range (NO_OF_POSITION_SAMPLES cfg)). lia.
Qed.

Lemma budget_kept_step l w l' w' :
  budget_kept cfg l ->
  loop_step dev sampling_cond (sampling_body cfg) (l, w) (l', w') ->
  budget_kept cfg l'.
Proof.
  intros (Hsum & Hs & Hc) (w1 & Hcond & Hbody). cbn [fst snd] in *.
  assert (Hpos : 0 < samples l).
  { unfold sampling_cond in Hcond.
    destruct (0 <? samples l) eqn:E; [now apply Z.ltb_lt |].
    cbn [run] in Hcond. discriminate. }
  pose proof (wp_elim _ _ _ _ _ (sampling_body_wp l w1) Hbody)
    as (_ & Es & Ec & _).
  pose proof (to_u32_range (NO_OF_POSITION_SAMPLES cfg)).
  unfold budget_kept. rewrite Es, Ec.
  rewrite !to_u32_small by lia. lia.
Qed.

Lemma budget_kept_reach w l' w' :
  loop_reach dev sampling_cond (sampling_body cfg) (locals_init cfg, w) (l', w') ->
  budget_kept cfg l'.
Proof.
  intros H. remember (locals_init cfg, w) as a eqn:Ea.
  remember (l', w') as b eqn:Eb. revert l' w' Eb.
  induction H as [| [l1 w1] c Hreach IH Hstep]; intros l' w' Eb; subst.
  - inversion Eb; subst. apply budget_kept_init.
  - eapply budget_kept_step; [apply (IH l1 w1 eq_refl) | exact Hstep].
Qed.

(** The loop ends, for any controller; its iteration count is the
    completed-sample count and chip-select is left as it was. *)
Lemma sampling_loop_wp w :
  wp dev (sampling_loop cfg (locals_init cfg)) w (fun r w' =>
    Z.of_nat (fst r) = counted_samples (snd r) /\
    budget_kept cfg (snd r) /\ cs w' = cs w).
Proof.
  unfold sampling_loop.
  apply (wp_while dev sampling_cond (sampling_body cfg)
    (fun n l w' =>
       Z.of_nat n = counted_samples l /\ budget_kept cfg l /\ cs w' = cs w)
    (fun l => Z.to_nat (samples l))).
  - intros n l w0 (Hn & (Hsum & Hs & Hc) & Hcs).
    pose proof (to_u32_range (NO_OF_POSITION_SAMPLES cfg)) as HN.
    unfold sampling_cond.
    destruct (0 <? samples l) eqn:E.
    + apply Z.ltb_lt in E. run_step.
      destruct (pin_value (dev w0 TP_IRQ) =? 0).
      * eapply wp_mono; [apply sampling_body_wp |].
        intros l' w' (Hcs' & Es & Ec & _). cbn [cs log] in Hcs'.
        rewrite Es, Ec. rewrite !to_u32_small by lia.
        unfold budget_kept. rewrite Es, Ec. rewrite !to_u32_small by lia.
        repeat split; try lia. congruence.
      * cbn [fst snd]. unfold budget_kept. auto.
    + run_step. unfold budget_kept. auto.
  - split; [reflexivity |]. split; [apply budget_kept_init | reflexivity].
  - lia.
Qed.

(** Lines 103 to 131 end without fault, for any controller. *)
Lemma sampling_wp w :
  wp dev (TP_Read_Coordinates_sampling cfg) w (fun l w' =>
    budget_kept cfg l /\ cs w' = GPIO_PIN_SET /\
    exists n wl wl',
      run dev (sampling_loop cfg (locals_init cfg)) wl = Done (n, l) wl' /\
      Z.of_nat n = counted_samples l).
Proof.
  unfold TP_Read_Coordinates_sampling.
  do 4 (apply wp_write_bind; cbv beta).
  match goal with |- wp dev _ ?w0 _ => set (wl := w0) end.
  apply wp_bind.
  pose proof (sampling_loop_wp wl) as H.
  destruct (wp_done _ _ _ _ H) as ([n l] & wl' & Erun & Hn & Hb & _).
  eapply done_wp; [exact Erun |].
  apply wp_write_bind. run_step.
  split; [exact Hb |]. split; [reflexivity |].
  exists n, wl, wl'. auto.
Qed.

End Sampling.

(** ** Validation and transform *)

Section Validation.

Variable dev : device.
Variable cfg : config.

(** Lines 133 to 154, case by case. *)
Lemma validate_run c l w1 :
  run dev (TP_Read_Coordinates_validate cfg c l) w1 =
  if (counted_samples l =? to_u32 (NO_OF_POSITION_SAMPLES cfg))
     && (pin_value (dev w1 TP_IRQ) =? 0)
  then
    if counted_samples l =? 0 then Failed (DivisionByZero AverageX)
    else if X_TRANSLATION cfg =? 0 then Failed (DivisionByZero TranslateX)
    else if Y_TRANSLATION cfg =? 0 then Failed (DivisionByZero TranslateY)
    else
      Done (to_u16 (x_pixel cfg
                      (negate16 (to_u16 (calculating_x l / counted_samples l)))),
            to_u16 (y_pixel cfg
                      (negate16 (to_u16 (calculating_y l / counted_samples l)))),
            TOUCHPAD_DATA_OK)
           (log (EvRead TP_IRQ (dev w1 TP_IRQ)) w1)
  else
    Done (0, 0, TOUCHPAD_DATA_NOISY)
         (if counted_samples l =? to_u32 (NO_OF_POSITION_SAMPLES cfg)
          then log (EvRead TP_IRQ (dev w1 TP_IRQ)) w1 else w1).
Proof.
  unfold TP_Read_Coordinates_validate, validate_cond.
  destruct (counted_samples l =? to_u32 (NO_OF_POSITION_SAMPLES cfg));
    cbn [andb]; [| reflexivity].
  cbn [bind HAL_GPIO_ReadPin run].
  destruct (pin_value (dev w1 TP_IRQ) =? 0); [| reflexivity].
  unfold udiv, idiv.
  destruct (counted_samples l =? 0); [reflexivity |].
  cbn [bind].
  destruct (X_TRANSLATION cfg =? 0); [reflexivity |].
  cbn [bind].
  destruct (Y_TRANSLATION cfg =? 0); [reflexivity |].
  cbn [bind run fst snd].
  rewrite !negate_wraps.
  rewrite x_store by apply negate16_range.
  rewrite y_store by apply negate16_range.
  reflexivity.
Qed.

(** The whole call: sampling, then validation where sampling stopped. *)
Lemma read_coordinates_run c w :
  exists l w1,
    run dev (TP_Read_Coordinates_sampling cfg) w = Done l w1 /\
    budget_kept cfg l /\
    run dev (TP_Read_Coordinates cfg c) w =
    run dev (TP_Read_Coordinates_validate cfg c l) w1.
Proof.
  destruct (wp_done _ _ _ _ (sampling_wp dev cfg w)) as (l & w1 & E & Hb & _).
  exists l, w1. split; [exact E |]. split; [exact Hb |].
  unfold TP_Read_Coordinates. rewrite run_bind, E. reflexivity.
Qed.

End Validation.

(** ** Properties of [TP_Read_Coordinates] *)

(** C2.  For a configuration with at least one sample and non-zero
    translation divisors, [TP_Read_Coordinates] reports
    [TOUCHPAD_DATA_OK] exactly when the completed-sample count equals the
    configured budget and the press line reads low at the check that
    follows the sampling loop; in every other case it reports
    [TOUCHPAD_DATA_NOISY] and leaves (0, 0) in the coordinate pair.  There
    is no third outcome. *)
Theorem read_coordinates_ok_iff cfg dev c w :
  1 <= NO_OF_POSITION_SAMPLES cfg < 2 ^ 32 ->
  X_TRANSLATION cfg <> 0 ->
  Y_TRANSLATION cfg <> 0 ->
  exists l w1,
    run dev (TP_Read_Coordinates_sampling cfg) w = Done l w1 /\
    ((counted_samples l = NO_OF_POSITION_SAMPLES cfg /\
      dev w1 TP_IRQ = GPIO_PIN_RESET /\
      exists xy w2,
        run dev (TP_Read_Coordinates cfg c) w
        = Done (xy, TOUCHPAD_DATA_OK) w2)
     \/
     (~ (counted_samples l = NO_OF_POSITION_SAMPLES cfg /\
         dev w1 TP_IRQ = GPIO_PIN_RESET) /\
      exists w2,
        run dev (TP_Read_Coordinates cfg c) w
        = Done (0, 0, TOUCHPAD_DATA_NOISY) w2)).
Proof.
  intros HN HX HY.
  destruct (read_coordinates_run dev cfg c w) as (l & w1 & Es & Hb & Er).
  exists l, w1. split; [exact Es |].
  rewrite Er, validate_run, (to_u32_small (NO_OF_POSITION_SAMPLES cfg) ltac:(lia)).
  destruct (counted_samples l =? NO_OF_POSITION_SAMPLES cfg) eqn:Ec.
  - apply Z.eqb_eq in Ec. cbn [andb].
    destruct (dev w1 TP_IRQ) eqn:Ei; cbn [pin_value Z.eqb].
    + left. split; [exact Ec |]. split; [reflexivity |].
      destruct (counted_samples l =? 0) eqn:E0; [apply Z.eqb_eq in E0; lia |].
      destruct (X_TRANSLATION cfg =? 0) eqn:E1; [apply Z.eqb_eq in E1; lia |].
      destruct (Y_TRANSLATION cfg =? 0) eqn:E2; [apply Z.eqb_eq in E2; lia |].
      eauto.
    + right. split; [| eauto]. intros [_ H]. discriminate.
  - apply Z.eqb_neq in Ec. cbn [andb].
    right. split; [| eauto]. intros [H _]. contradiction.
Qed.

(** C3.  Whenever [TP_Read_Coordinates] succeeds, each coordinate is the
    16-bit store of the linear transform applied to (2^16 - a) mod 2^16,
    where a is the 16-bit average of the accumulator: multiplying the
    [uint16_t] by -1 wraps around. *)
Theorem success_negates_average cfg dev c w xy w2 :
  run dev (TP_Read_Coordinates cfg c) w = Done (xy, TOUCHPAD_DATA_OK) w2 ->
  exists l w1,
    run dev (TP_Read_Coordinates_sampling cfg) w = Done l w1 /\
    let ax := to_u16 (calculating_x l / counted_samples l) in
    let ay := to_u16 (calculating_y l / counted_samples l) in
    to_u16 (int_mul ax (-1)) = (2 ^ 16 - ax) mod 2 ^ 16 /\
    to_u16 (int_mul ay (-1)) = (2 ^ 16 - ay) mod 2 ^ 16 /\
    xy = (to_u16 (x_pixel cfg ((2 ^ 16 - ax) mod 2 ^ 16)),
          to_u16 (y_pixel cfg ((2 ^ 16 - ay) mod 2 ^ 16))).
Proof.
  intros H.
  destruct (read_coordinates_run dev cfg c w) as (l & w1 & Es & Hb & Er).
  exists l, w1. split; [exact Es |].
  cbv zeta. split; [apply negate_wraps |]. split; [apply negate_wraps |].
  rewrite Er, validate_run in H. fold (negate16 (to_u16 (calculating_x l / counted_samples l))).
  fold (negate16 (to_u16 (calculating_y l / counted_samples l))).
  destruct ((counted_samples l =? to_u32 (NO_OF_POSITION_SAMPLES cfg))
            && (pin_value (dev w1 TP_IRQ) =? 0)); [| discriminate].
  destruct (counted_samples l =? 0); [discriminate |].
  destruct (X_TRANSLATION cfg =? 0); [discriminate |].
  destruct (Y_TRANSLATION cfg =? 0); [discriminate |].
  inversion H. reflexivity.
Qed.

(** C4.  With a budget of at least one sample the success branch is only
    entered with a completed-sample count equal to the budget, hence
    non-zero, and neither averaging division divides by zero.  With a
    budget of zero and the press line low at the check, the success branch
    is entered with a count of zero and the first averaging division
    divides by zero. *)
Theorem averaging_divisor cfg dev c w :
  (1 <= NO_OF_POSITION_SAMPLES cfg < 2 ^ 32 ->
   run dev (TP_Read_Coordinates cfg c) w <> Failed (DivisionByZero AverageX) /\
   run dev (TP_Read_Coordinates cfg c) w <> Failed (DivisionByZero AverageY) /\
   forall l w1 w2,
     run dev (TP_Read_Coordinates_sampling cfg) w = Done l w1 ->
     run dev (validate_cond cfg l) w1 = Done true w2 ->
     counted_samples l = NO_OF_POSITION_SAMPLES cfg /\ counted_samples l <> 0)
  /\
  (NO_OF_POSITION_SAMPLES cfg = 0 ->
   forall l w1,
     run dev (TP_Read_Coordinates_sampling cfg) w = Done l w1 ->
     dev w1 TP_IRQ = GPIO_PIN_RESET ->
     counted_samples l = 0 /\
     (exists w2, run dev (validate_cond cfg l) w1 = Done true w2) /\
     run dev (TP_Read_Coordinates cfg c) w = Failed (DivisionByZero AverageX)).
Proof.
  destruct (read_coordinates_run dev cfg c w) as (l & w1 & Es & Hb & Er).
  split.
  - intros HN. rewrite Er, validate_run, (to_u32_small (NO_OF_POSITION_SAMPLES cfg) ltac:(lia)).
    assert (G : forall d,
      (if (counted_samples l =? NO_OF_POSITION_SAMPLES cfg)
          && (pin_value (dev w1 TP_IRQ) =? 0)
       then
         if counted_samples l =? 0 then Failed (DivisionByZero AverageX)
         else if X_TRANSLATION cfg =? 0 then Failed (DivisionByZero TranslateX)
         else if Y_TRANSLATION cfg =? 0 then Failed (DivisionByZero TranslateY)
         else
           Done (to_u16 (x_pixel cfg
                   (negate16 (to_u16 (calculating_x l / counted_samples l)))),
                 to_u16 (y_pixel cfg
                   (negate16 (to_u16 (calculating_y l / counted_samples l)))),
                 TOUCHPAD_DATA_OK)
                (log (EvRead TP_IRQ (dev w1 TP_IRQ)) w1)
       else
         Done (0, 0, TOUCHPAD_DATA_NOISY)
              (if counted_samples l =? NO_OF_POSITION_SAMPLES cfg
               then log (EvRead TP_IRQ (dev w1 TP_IRQ)) w1 else w1))
      = Failed (DivisionByZero d) -> d = TranslateX \/ d = TranslateY).
    { intros d.
      destruct (counted_samples l =? NO_OF_POSITION_SAMPLES cfg) eqn:Ec;
        cbn [andb]; [| discriminate].
      apply Z.eqb_eq in Ec.
      destruct (pin_value (dev w1 TP_IRQ) =? 0); [| discriminate].
      destruct (counted_samples l =? 0) eqn:E0; [apply Z.eqb_eq in E0; lia |].
      destruct (X_TRANSLATION cfg =? 0); [intros H; inversion H; auto |].
      destruct (Y_TRANSLATION cfg =? 0); [intros H; inversion H; auto |].
      discriminate. }
    split; [| split].
    + intros H. destruct (G _ H); discriminate.
    + intros H. destruct (G _ H); discriminate.
    + intros l' w1' w2 Es' Hc. rewrite Es in Es'. inversion Es'; subst l' w1'.
      unfold validate_cond in Hc. rewrite (to_u32_small (NO_OF_POSITION_SAMPLES cfg) ltac:(lia)) in Hc.
      destruct (counted_samples l =? NO_OF_POSITION_SAMPLES cfg) eqn:Ec;
        [| cbn [run] in Hc; discriminate].
      apply Z.eqb_eq in Ec. lia.
  - intros HN l' w1' Es' Hirq. rewrite Es in Es'. inversion Es'; subst l' w1'.
    destruct Hb as (Hsum & Hs & Hc). rewrite HN in Hsum.
    change (to_u32 0) with 0 in Hsum.
    assert (E0 : counted_samples l = 0) by lia.
    split; [exact E0 |]. split.
    + unfold validate_cond. rewrite E0, HN.
      change (0 =? to_u32 0) with true. cbv iota.
      cbn [bind HAL_GPIO_ReadPin run]. rewrite Hirq. cbn [pin_value Z.eqb].
      eauto.
    + rewrite Er, validate_run, E0, HN, Hirq. reflexivity.
Qed.

(** ** A steady press on a controller with constant answers *)

Section SteadyPress.

Variable dev : device.
Variable cfg : config.
Variables Rx Ry : Z.

Hypothesis Hheld : press_held dev.
Hypothesis Hx : answers dev (CMD_RDX cfg) Rx.
Hypothesis Hy : answers dev (CMD_RDY cfg) Ry.

(** An exchange inside a larger program returns the controller's answer and
    leaves chip-select low. *)
Lemma exchange_answer {B} cmd R (k : Z -> io B) w Q :
  answers dev cmd R ->
  cs w = GPIO_PIN_RESET ->
  (forall w', cs w' = GPIO_PIN_RESET -> 0 <= R < 2 ^ 16 -> wp dev (k R) w' Q) ->
  wp dev (TP_Write cmd ;; r <- TP_Read ;; k r) w Q.
Proof.
  intros Ha Hcs Hk.
  specialize (Ha w Hcs). unfold exchange in Ha. rewrite run_bind in Ha.
  unfold wp. rewrite run_bind.
  destruct (wp_done _ _ _ _ (TP_Write_wp dev cmd w)) as ([] & w1 & E1 & Hcs1 & _).
  rewrite E1 in *. rewrite run_bind.
  destruct (wp_done _ _ _ _ (TP_Read_wp dev w1))
    as (r & w2 & E2 & Hcs2 & _ & Hr & _).
  rewrite E2 in *. cbn [result_of] in Ha. inversion Ha; subst r.
  apply Hk; [congruence | exact Hr].
Qed.

Hypothesis HN : 1 <= NO_OF_POSITION_SAMPLES cfg < 2 ^ 32.
Hypothesis HsumX : NO_OF_POSITION_SAMPLES cfg * Rx < 2 ^ 32.
Hypothesis HsumY : NO_OF_POSITION_SAMPLES cfg * Ry < 2 ^ 32.

(** Under a steady press the loop uses its whole budget and the
    accumulators hold the budget times the constant answers. *)
Lemma steady_loop_wp w :
  cs w = GPIO_PIN_RESET ->
  wp dev (sampling_loop cfg (locals_init cfg)) w (fun r w' =>
    counted_samples (snd r) = NO_OF_POSITION_SAMPLES cfg /\
    calculating_x (snd r) = Rx * NO_OF_POSITION_SAMPLES cfg /\
    calculating_y (snd r) = Ry * NO_OF_POSITION_SAMPLES cfg /\
    0 <= Rx < 2 ^ 16 /\ 0 <= Ry < 2 ^ 16).
Proof.
  intros Hcs.
  assert (HRx : 0 <= Rx < 2 ^ 16).
  { specialize (Hx w Hcs). unfold exchange in Hx. rewrite run_bind in Hx.
    destruct (wp_done _ _ _ _ (TP_Write_wp dev (CMD_RDX cfg) w))
      as ([] & w1 & E1 & _).
    rewrite E1 in Hx.
    destruct (wp_done _ _ _ _ (TP_Read_wp dev w1)) as (r & w2 & E2 & _ & _ & Hr & _).
    rewrite E2 in Hx. inversion Hx; subst r. exact Hr. }
  assert (HRy : 0 <= Ry < 2 ^ 16).
  { specialize (Hy w Hcs). unfold exchange in Hy. rewrite run_bind in Hy.
    destruct (wp_done _ _ _ _ (TP_Write_wp dev (CMD_RDY cfg) w))
      as ([] & w1 & E1 & _).
    rewrite E1 in Hy.
    destruct (wp_done _ _ _ _ (TP_Read_wp dev w1)) as (r & w2 & E2 & _ & _ & Hr & _).
    rewrite E2 in Hy. inversion Hy; subst r. exact Hr. }
  unfold sampling_loop.
  apply (wp_while dev sampling_cond (sampling_body cfg)
    (fun n l w' =>
       cs w' = GPIO_PIN_RESET /\
       counted_samples l = Z.of_nat n /\
       samples l = NO_OF_POSITION_SAMPLES cfg - Z.of_nat n /\
       0 <= samples l /\
       calculating_x l = Rx * Z.of_nat n /\
       calculating_y l = Ry * Z.of_nat n)
    (fun l => Z.to_nat (samples l))).
  - intros n l w0 (Hcs0 & Hc & Hs & Hs0 & Hcx & Hcy).
    unfold sampling_cond.
    destruct (0 <? samples l) eqn:E.
    + apply Z.ltb_lt in E. apply wp_read_bind. rewrite Hheld. run_step.
      change (wp dev (sampling_body cfg l)
                (log (EvRead TP_IRQ GPIO_PIN_RESET) w0)
                (fun s' w2 =>
                   (cs w2 = GPIO_PIN_RESET /\
                    counted_samples s' = Z.of_nat (S n) /\
                    samples s' = NO_OF_POSITION_SAMPLES cfg - Z.of_nat (S n) /\
                    0 <= samples s' /\
                    calculating_x s' = Rx * Z.of_nat (S n) /\
                    calculating_y s' = Ry * Z.of_nat (S n)) /\
                   (Z.to_nat (samples s') < Z.to_nat (samples l))%nat)).
      unfold sampling_body.
      apply (exchange_answer (CMD_RDY cfg) Ry); [exact Hy | exact Hcs0 |].
      intros w1 Hcs1 _. cbv zeta.
      apply (exchange_answer (CMD_RDX cfg) Rx); [exact Hx | exact Hcs1 |].
      intros w2 Hcs2 _. run_step.
      cbn [samples counted_samples calculating_x calculating_y].
      rewrite Hc, Hs, Hcx, Hcy in *.
      assert (Hn1 : Z.of_nat (S n) = Z.of_nat n + 1) by lia.
      rewrite Hn1.
      assert (Rx * (Z.of_nat n + 1) <= Rx * NO_OF_POSITION_SAMPLES cfg) by nia.
      assert (Ry * (Z.of_nat n + 1) <= Ry * NO_OF_POSITION_SAMPLES cfg) by nia.
      rewrite !to_u32_small by nia.
      repeat split; try lia. exact Hcs2.
    + apply Z.ltb_ge in E. run_step.
      assert (En : Z.of_nat n = NO_OF_POSITION_SAMPLES cfg) by lia.
      rewrite Hc, Hcx, Hcy, En. auto.
  - unfold locals_init.
    cbn [samples counted_samples calculating_x calculating_y].
    rewrite to_u32_small by lia.
    repeat split; try lia. exact Hcs.
  - lia.
Qed.

Hypothesis HXT : X_TRANSLATION cfg <> 0.
Hypothesis HYT : Y_TRANSLATION cfg <> 0.

Lemma steady_read_coordinates c w :
  exists w',
    run dev (TP_Read_Coordinates cfg c) w
    = Done (to_u16 (x_pixel cfg (negate16 Rx)),
            to_u16 (y_pixel cfg (negate16 Ry)),
            TOUCHPAD_DATA_OK) w'.
Proof.
  unfold TP_Read_Coordinates, TP_Read_Coordinates_sampling.
  rewrite run_bind.
  cbn [bind HAL_GPIO_WritePin run].
  match goal with |- context [run dev (bind (sampling_loop _ _) _) ?w0] =>
    set (wl := w0) end.
  rewrite run_bind.
  destruct (wp_done _ _ _ _ (steady_loop_wp wl eq_refl))
    as ([n l] & wl' & E & Hc & Hcx & Hcy & HRx & HRy).
  rewrite E. cbn [run snd] in *.
  rewrite validate_run, Hheld.
  rewrite Hc, Hcx, Hcy, (to_u32_small (NO_OF_POSITION_SAMPLES cfg)) by lia.
  rewrite Z.eqb_refl. cbn [andb pin_value Z.eqb].
  destruct (NO_OF_POSITION_SAMPLES cfg =? 0) eqn:E0; [apply Z.eqb_eq in E0; lia |].
  destruct (X_TRANSLATION cfg =? 0) eqn:E1; [apply Z.eqb_eq in E1; lia |].
  destruct (Y_TRANSLATION cfg =? 0) eqn:E2; [apply Z.eqb_eq in E2; lia |].
  rewrite !Z.div_mul by lia.
  rewrite (to_u16_small Rx), (to_u16_small Ry) by lia.
  eauto.
Qed.

End SteadyPress.

(** C1 (as amended).  For a budget of at least one sample whose sums fit 32
    bits and non-zero translation divisors, a controller that holds the
    press line low at every check and answers every X and Y command with
    the constants Rx and Ry makes [TP_Read_Coordinates] succeed with the
    transform applied to the negated constants, (2^16 - Rx) mod 2^16 and
    (2^16 - Ry) mod 2^16, each result reduced to 16 bits. *)
Theorem constant_reads_transform cfg dev c w Rx Ry :
  1 <= NO_OF_POSITION_SAMPLES cfg < 2 ^ 32 ->
  NO_OF_POSITION_SAMPLES cfg * Rx < 2 ^ 32 ->
  NO_OF_POSITION_SAMPLES cfg * Ry < 2 ^ 32 ->
  X_TRANSLATION cfg <> 0 ->
  Y_TRANSLATION cfg <> 0 ->
  press_held dev ->
  answers dev (CMD_RDX cfg) Rx ->
  answers dev (CMD_RDY cfg) Ry ->
  exists w',
    run dev (TP_Read_Coordinates cfg c) w
    = Done (to_u16 (x_pixel cfg ((2 ^ 16 - Rx) mod 2 ^ 16)),
            to_u16 (y_pixel cfg ((2 ^ 16 - Ry) mod 2 ^ 16)),
            TOUCHPAD_DATA_OK) w'.
Proof.
  intros HN HsX HsY HX HY Hheld Hx Hy.
  exact (steady_read_coordinates dev cfg Rx Ry Hheld Hx Hy HN HsX HsY HX HY c w).
Qed.

Lemma controller_press_held cfg Rx Ry : press_held (controller cfg Rx Ry).
Proof. intros w. reflexivity. Qed.

Lemma controller_answers_x n :
  answers (controller (sample_config n) 100 200) 208 100.
Proof. intros w Hcs. vm_compute. reflexivity. Qed.

Lemma controller_answers_y n :
  answers (controller (sample_config n) 100 200) 144 200.
Proof. intros w Hcs. vm_compute. reflexivity. Qed.

Lemma constant_reads_transform_witness :
  exists w',
    run (controller (sample_config 3) 100 200)
        (TP_Read_Coordinates (sample_config 3) (0, 0)) idle
    = Done (to_u16 (x_pixel (sample_config 3) ((2 ^ 16 - 100) mod 2 ^ 16)),
            to_u16 (y_pixel (sample_config 3) ((2 ^ 16 - 200) mod 2 ^ 16)),
            TOUCHPAD_DATA_OK) w'.
Proof.
  apply constant_reads_transform.
  - simpl. lia.
  - simpl. lia.
  - simpl. lia.
  - simpl. lia.
  - simpl. lia.
  - apply controller_press_held.
  - apply controller_answers_x.
  - apply controller_answers_y.
Defined.

(** C1 as first stated fails: with one sample, a steady press and constant
    answers 100 (X) and 200 (Y), the call succeeds, but x is not
    ((240 - 100/15) - 13) * 1 and y is not (200/11 - 15) * 1, not even
    modulo 2^16; and x is not the integer the transform gives for the
    negated answer either, as the store keeps 16 bits. *)
Lemma constant_reads_not_plain_transform :
  1 <= NO_OF_POSITION_SAMPLES (sample_config 1) /\
  press_held (controller (sample_config 1) 100 200) /\
  answers (controller (sample_config 1) 100 200) (CMD_RDX (sample_config 1)) 100 /\
  answers (controller (sample_config 1) 100 200) (CMD_RDY (sample_config 1)) 200 /\
  exists x y w',
    run (controller (sample_config 1) 100 200)
        (TP_Read_Coordinates (sample_config 1) (0, 0)) idle
    = Done (x, y, TOUCHPAD_DATA_OK) w' /\
    x <> x_pixel (sample_config 1) 100 /\
    y <> y_pixel (sample_config 1) 200 /\
    x <> to_u16 (x_pixel (sample_config 1) 100) /\
    y <> to_u16 (y_pixel (sample_config 1) 200) /\
    x <> x_pixel (sample_config 1) ((2 ^ 16 - 100) mod 2 ^ 16).
Proof.
  split; [simpl; lia |].
  split; [apply controller_press_held |].
  split; [apply controller_answers_x |].
  split; [apply controller_answers_y |].
  exists 61401, 5924.
  exists (world_of (run (controller (sample_config 1) 100 200)
                        (TP_Read_Coordinates (sample_config 1) (0, 0)) idle)
                   idle).
  split; [vm_compute; reflexivity |].
  repeat split; vm_compute; discriminate.
Qed.

Lemma read_coordinates_ok_iff_witness :
  exists l w1,
    run (controller (sample_config 3) 100 200)
        (TP_Read_Coordinates_sampling (sample_config 3)) idle = Done l w1 /\
    ((counted_samples l = NO_OF_POSITION_SAMPLES (sample_config 3) /\
      controller (sample_config 3) 100 200 w1 TP_IRQ = GPIO_PIN_RESET /\
      exists xy w2,
        run (controller (sample_config 3) 100 200)
            (TP_Read_Coordinates (sample_config 3) (0, 0)) idle
        = Done (xy, TOUCHPAD_DATA_OK) w2)
     \/
     (~ (counted_samples l = NO_OF_POSITION_SAMPLES (sample_config 3) /\
         controller (sample_config 3) 100 200 w1 TP_IRQ = GPIO_PIN_RESET) /\
      exists w2,
        run (controller (sample_config 3) 100 200)
            (TP_Read_Coordinates (sample_config 3) (0, 0)) idle
        = Done (0, 0, TOUCHPAD_DATA_NOISY) w2)).
Proof.
  apply read_coordinates_ok_iff.
  - simpl. lia.
  - simpl. lia.
  - simpl. lia.
Defined.

Lemma success_negates_average_witness :
  exists l w1,
    run (controller (sample_config 1) 100 200)
        (TP_Read_Coordinates_sampling (sample_config 1)) idle = Done l w1 /\
    let ax := to_u16 (calculating_x l / counted_samples l) in
    let ay := to_u16 (calculating_y l / counted_samples l) in
    to_u16 (int_mul ax (-1)) = (2 ^ 16 - ax) mod 2 ^ 16 /\
    to_u16 (int_mul ay (-1)) = (2 ^ 16 - ay) mod 2 ^ 16 /\
    (61401, 5924) = (to_u16 (x_pixel (sample_config 1) ((2 ^ 16 - ax) mod 2 ^ 16)),
                     to_u16 (y_pixel (sample_config 1) ((2 ^ 16 - ay) mod 2 ^ 16))).
Proof.
  apply (success_negates_average (sample_config 1)
           (controller (sample_config 1) 100 200) (0, 0) idle (61401, 5924)
           (world_of (run (controller (sample_config 1) 100 200)
                          (TP_Read_Coordinates (sample_config 1) (0, 0)) idle)
                     idle)).
  vm_compute. reflexivity.
Defined.

Lemma averaging_divisor_witness :
  (run (controller (sample_config 1) 100 200)
       (TP_Read_Coordinates (sample_config 1) (0, 0)) idle
   <> Failed (DivisionByZero AverageX))
  /\
  run (controller (sample_config 0) 100 200)
      (TP_Read_Coordinates (sample_config 0) (0, 0)) idle
  = Failed (DivisionByZero AverageX).
Proof.
  split.
  - apply (proj1 (averaging_divisor (sample_config 1)
                    (controller (sample_config 1) 100 200) (0, 0) idle)).
    simpl. lia.
  - apply (proj2 (averaging_divisor (sample_config 0)
                    (controller (sample_config 0) 100 200) (0, 0) idle)
             eq_refl
             (locals_init (sample_config 0))
             (world_of (run (controller (sample_config 0) 100 200)
                            (TP_Read_Coordinates_sampling (sample_config 0))
                            idle) idle)).
    + vm_compute. reflexivity.
    + reflexivity.
Defined.

(** ** Properties of the transport and of the press query *)

(** The bit sampled [k]-th lands [k] places below the top of the word. *)
Lemma assemble_testbit bits acc k :
  (k < length bits)%nat ->
  Z.testbit (assemble bits acc) (Z.of_nat (length bits - 1 - k))
  = pin_bit (nth k bits GPIO_PIN_RESET).
Proof.
  revert k. induction bits as [| b bits IH] using rev_ind; intros k Hk.
  - simpl in Hk. lia.
  - rewrite length_app in *. cbn [length] in *.
    rewrite assemble_snoc.
    destruct (Nat.eq_dec k (length bits)) as [-> | Hne].
    + replace (length bits + 1 - 1 - length bits)%nat with 0%nat by lia.
      rewrite nth_middle. apply Z.testbit_0_r.
    + rewrite app_nth1 by lia.
      replace (length bits + 1 - 1 - k)%nat
        with (S (length bits - 1 - k)) by lia.
      rewrite Nat2Z.inj_succ, Z.testbit_succ_r by lia.
      apply IH. lia.
Qed.

(** C5.  [TP_Read] runs its loop exactly 16 times; each round pulses the
    clock high then low and then samples data-in once; the value returned
    is the 16 sampled bits assembled by shift-and-or, so the bit sampled
    first is bit 15 and the one sampled last is bit 0. *)
Theorem TP_Read_msb_first dev w :
  exists bits st w',
    length bits = 16%nat /\
    run dev TP_Read_loop w = Done (16%nat, st) w' /\
    run dev TP_Read w = Done (assemble bits 0) w' /\
    trace w' = flat_map read_bit_events (rev bits) ++ trace w /\
    0 <= assemble bits 0 < 2 ^ 16 /\
    forall k, (k < 16)%nat ->
      Z.testbit (assemble bits 0) (15 - Z.of_nat k)
      = pin_bit (nth k bits GPIO_PIN_RESET).
Proof.
  destruct (wp_done _ _ _ _ (TP_Read_loop_wp dev w))
    as ([n st] & w' & E & Hn & _ & _ & bits & Hl & Ht & Hv & Hb).
  cbn [fst snd] in *. subst n.
  exists bits, st, w'.
  split; [exact Hl |]. split; [exact E |]. split.
  - unfold TP_Read. rewrite run_bind, E. cbn [run snd]. congruence.
  - split; [exact Ht |]. split; [rewrite <- Hv; exact Hb |].
    intros k Hk.
    rewrite <- (assemble_testbit bits 0 k) by lia.
    rewrite Hl. f_equal. lia.
Qed.

Lemma TP_Read_msb_first_witness :
  exists w',
    run (scripted [] (word_bits 23130)) TP_Read idle = Done 23130 w'.
Proof.
  destruct (TP_Read_msb_first (scripted [] (word_bits 23130)) idle)
    as (bits & st & w' & _ & _ & Hr & _).
  exists w'. rewrite Hr. f_equal.
  assert (E : result_of (run (scripted [] (word_bits 23130)) TP_Read idle)
              = Some 23130) by (vm_compute; reflexivity).
  rewrite Hr in E. cbn [result_of] in E. congruence.
Defined.

Lemma touchpad_pressed_total dev w :
  exists r w', run dev TP_Touchpad_Pressed w = Done r w'.
Proof.
  unfold TP_Touchpad_Pressed. cbn [bind HAL_GPIO_ReadPin run].
  destruct (pin_value (dev w TP_IRQ) =? 0); cbn [run]; eauto.
Qed.

(** C8.  [TP_Touchpad_Pressed] returns [TOUCHPAD_PRESSED] exactly when the
    interrupt line reads low, and does nothing but that one read: the
    levels of chip-select, clock and data-out are what they were. *)
Theorem touchpad_pressed_reads_only dev w :
  exists v w',
    run dev TP_Touchpad_Pressed w = Done v w' /\
    (v = TOUCHPAD_PRESSED <-> dev w TP_IRQ = GPIO_PIN_RESET) /\
    (v = TOUCHPAD_PRESSED \/ v = TOUCHPAD_NOT_PRESSED) /\
    cs w' = cs w /\ clk w' = clk w /\ mosi w' = mosi w /\
    trace w' = EvRead TP_IRQ (dev w TP_IRQ) :: trace w.
Proof.
  unfold TP_Touchpad_Pressed. cbn [bind HAL_GPIO_ReadPin run].
  destruct (dev w TP_IRQ) eqn:E; cbn [pin_value Z.eqb run];
    eexists; eexists; (split; [reflexivity |]); cbn [cs clk mosi trace log];
    unfold TOUCHPAD_PRESSED, TOUCHPAD_NOT_PRESSED;
    repeat split; auto; try discriminate.
Qed.

Lemma touchpad_pressed_reads_only_witness :
  exists w',
    run (scripted [] []) TP_Touchpad_Pressed idle = Done TOUCHPAD_PRESSED w' /\
    cs w' = cs idle /\ clk w' = clk idle /\ mosi w' = mosi idle.
Proof.
  destruct (touchpad_pressed_reads_only (scripted [] []) idle)
    as (v & w' & Hr & Hv & _ & Hcs & Hclk & Hmosi & _).
  exists w'. rewrite Hr.
  rewrite (proj2 Hv eq_refl). auto.
Defined.

(** C9.  For any controller, hence for any sequence of input readings: the
    bit loop of [TP_Write] runs exactly 8 times, the bit loop of [TP_Read]
    exactly 16 times, the sampling loop of [TP_Read_Coordinates] at most
    as many times as the sample budget; every operation ends, and
    [TP_Read_Coordinates] never exhausts the fuel of the model. *)
Theorem loops_are_bounded dev cfg v c w :
  (exists st w', run dev (TP_Write_loop v) w = Done (8%nat, st) w') /\
  (exists st w', run dev TP_Read_loop w = Done (16%nat, st) w') /\
  (exists n l w',
     run dev (sampling_loop cfg (locals_init cfg)) w = Done (n, l) w' /\
     Z.of_nat n <= to_u32 (NO_OF_POSITION_SAMPLES cfg) /\
     (0 <= NO_OF_POSITION_SAMPLES cfg ->
      Z.of_nat n <= NO_OF_POSITION_SAMPLES cfg)) /\
  (exists w', run dev (TP_Write v) w = Done tt w') /\
  (exists r w', run dev TP_Read w = Done r w') /\
  (exists r w', run dev TP_Touchpad_Pressed w = Done r w') /\
  (exists l w', run dev (TP_Read_Coordinates_sampling cfg) w = Done l w') /\
  run dev (TP_Read_Coordinates cfg c) w <> Failed OutOfFuel.
Proof.
  split.
  { destruct (wp_done _ _ _ _ (TP_Write_loop_wp dev v w))
      as ([n st] & w' & E & Hn & _).
    cbn [fst] in Hn. subst n. eauto. }
  split.
  { destruct (wp_done _ _ _ _ (TP_Read_loop_wp dev w))
      as ([n st] & w' & E & Hn & _).
    cbn [fst] in Hn. subst n. eauto. }
  split.
  { destruct (wp_done _ _ _ _ (sampling_loop_wp dev cfg w))
      as ([n l] & w' & E & Hn & (Hsum & Hs & Hc) & _).
    cbn [fst snd] in *. exists n, l, w'. split; [exact E |].
    assert (Hle : Z.of_nat n <= to_u32 (NO_OF_POSITION_SAMPLES cfg)) by lia.
    split; [exact Hle |].
    intros H0. unfold to_u32 in Hle.
    pose proof (Z.mod_le (NO_OF_POSITION_SAMPLES cfg) (2 ^ 32) H0 ltac:(lia)).
    lia. }
  split.
  { destruct (wp_done _ _ _ _ (TP_Write_wp dev v w)) as ([] & w' & E & _).
    eauto. }
  split.
  { destruct (wp_done _ _ _ _ (TP_Read_wp dev w)) as (r & w' & E & _).
    eauto. }
  split.
  { destruct (touchpad_pressed_total dev w) as (r & w' & E). eauto. }
  destruct (read_coordinates_run dev cfg c w) as (l & w1 & Es & _ & Er).
  split; [eauto |].
  rewrite Er, validate_run.
  destruct ((counted_samples l =? to_u32 (NO_OF_POSITION_SAMPLES cfg))
            && (pin_value (dev w1 TP_IRQ) =? 0)); [| discriminate].
  destruct (counted_samples l =? 0); [discriminate |].
  destruct (X_TRANSLATION cfg =? 0); [discriminate |].
  destruct (Y_TRANSLATION cfg =? 0); discriminate.
Qed.

Lemma loops_are_bounded_witness :
  exists n l w',
    run (scripted [GPIO_PIN_RESET; GPIO_PIN_SET] [])
        (sampling_loop (sample_config 3) (locals_init (sample_config 3))) idle
    = Done (n, l) w' /\
    Z.of_nat n <= NO_OF_POSITION_SAMPLES (sample_config 3).
Proof.
  destruct (loops_are_bounded (scripted [GPIO_PIN_RESET; GPIO_PIN_SET] [])
              (sample_config 3) 0 (0, 0) idle)
    as (_ & _ & (n & l & w' & E & _ & H) & _).
  exists n, l, w'. split; [exact E |]. apply H. simpl. lia.
Defined.

(** ** Averaging, the loop invariant and repeatability *)

(** C6.  On success each accumulator is divided by the completed-sample
    count with truncation: the average a is the largest integer with
    count * a not above the sum.  Example: a controller that answers the Y
    command with 100 and then 101 (and the X command with 7), read with a
    budget of two samples and a transparent calibration, gives a Y sum of
    201, a count of 2 and the coordinate of the average 100, not 101. *)
Theorem average_truncates :
  (forall cfg dev c w xy w2,
     run dev (TP_Read_Coordinates cfg c) w = Done (xy, TOUCHPAD_DATA_OK) w2 ->
     exists l w1 ax ay,
       run dev (TP_Read_Coordinates_sampling cfg) w = Done l w1 /\
       0 < counted_samples l /\
       counted_samples l * ax <= calculating_x l < counted_samples l * (ax + 1) /\
       counted_samples l * ay <= calculating_y l < counted_samples l * (ay + 1) /\
       xy = (to_u16 (x_pixel cfg (negate16 (to_u16 ax))),
             to_u16 (y_pixel cfg (negate16 (to_u16 ay)))))
  /\
  (exists l w1 x w2,
     run (scripted [] (word_bits 100 ++ word_bits 7 ++
                       word_bits 101 ++ word_bits 7))
         (TP_Read_Coordinates_sampling (plain_config 2)) idle = Done l w1 /\
     calculating_y l = 100 + 101 /\
     counted_samples l = 2 /\
     run (scripted [] (word_bits 100 ++ word_bits 7 ++
                       word_bits 101 ++ word_bits 7))
         (TP_Read_Coordinates (plain_config 2) (0, 0)) idle
     = Done (x, y_pixel (plain_config 2) (negate16 100), TOUCHPAD_DATA_OK) w2 /\
     y_pixel (plain_config 2) (negate16 100)
     <> y_pixel (plain_config 2) (negate16 101)).
Proof.
  split.
  - intros cfg dev c w xy w2 H.
    destruct (read_coordinates_run dev cfg c w)
      as (l & w1 & Es & (Hsum & Hs & Hc) & Er).
    rewrite Er, validate_run in H.
    destruct ((counted_samples l =? to_u32 (NO_OF_POSITION_SAMPLES cfg))
              && (pin_value (dev w1 TP_IRQ) =? 0)); [| discriminate].
    destruct (counted_samples l =? 0) eqn:E0; [discriminate |].
    apply Z.eqb_neq in E0.
    destruct (X_TRANSLATION cfg =? 0); [discriminate |].
    destruct (Y_TRANSLATION cfg =? 0); [discriminate |].
    inversion H; subst.
    exists l, w1, (calculating_x l / counted_samples l),
      (calculating_y l / counted_samples l).
    assert (Hpos : 0 < counted_samples l) by lia.
    split; [exact Es |]. split; [exact Hpos |].
    pose proof (Z.mul_div_le (calculating_x l) _ Hpos).
    pose proof (Z.mul_succ_div_gt (calculating_x l) _ Hpos).
    pose proof (Z.mul_div_le (calculating_y l) _ Hpos).
    pose proof (Z.mul_succ_div_gt (calculating_y l) _ Hpos).
    repeat split; lia.
  - set (dev := scripted [] (word_bits 100 ++ word_bits 7 ++
                             word_bits 101 ++ word_bits 7)).
    exists (mkLocals 14 201 7 101 14 201 0 2).
    exists (world_of (run dev (TP_Read_Coordinates_sampling (plain_config 2))
                          idle) idle).
    exists 247.
    exists (world_of (run dev (TP_Read_Coordinates (plain_config 2) (0, 0))
                          idle) idle).
    split; [vm_compute; reflexivity |].
    split; [reflexivity |]. split; [reflexivity |].
    split; [vm_compute; reflexivity |].
    vm_compute. discriminate.
Qed.

Lemma average_truncates_witness :
  exists l w1 ax ay,
    run (controller (sample_config 1) 100 200)
        (TP_Read_Coordinates_sampling (sample_config 1)) idle = Done l w1 /\
    0 < counted_samples l /\
    counted_samples l * ax <= calculating_x l < counted_samples l * (ax + 1) /\
    counted_samples l * ay <= calculating_y l < counted_samples l * (ay + 1) /\
    (61401, 5924) = (to_u16 (x_pixel (sample_config 1) (negate16 (to_u16 ax))),
                     to_u16 (y_pixel (sample_config 1) (negate16 (to_u16 ay)))).
Proof.
  apply (proj1 average_truncates (sample_config 1)
           (controller (sample_config 1) 100 200) (0, 0) idle (61401, 5924)
           (world_of (run (controller (sample_config 1) 100 200)
                          (TP_Read_Coordinates (sample_config 1) (0, 0)) idle)
                     idle)).
  vm_compute. reflexivity.
Defined.

(** C7.  For a budget that fits the 32-bit counter: at the head of the
    sampling loop, after any number of rounds, completed plus remaining
    samples is the budget; so the completed count is at most the budget
    there, at loop exit and when validation starts. *)
Theorem completed_count_within_budget cfg dev w :
  0 <= NO_OF_POSITION_SAMPLES cfg < 2 ^ 32 ->
  (forall w0 l w',
     loop_reach dev sampling_cond (sampling_body cfg)
       (locals_init cfg, w0) (l, w') ->
     counted_samples l + samples l = NO_OF_POSITION_SAMPLES cfg /\
     0 <= samples l /\
     0 <= counted_samples l <= NO_OF_POSITION_SAMPLES cfg)
  /\
  (exists l w1,
     run dev (TP_Read_Coordinates_sampling cfg) w = Done l w1 /\
     (exists w0 w',
        loop_reach dev sampling_cond (sampling_body cfg)
          (locals_init cfg, w0) (l, w')) /\
     counted_samples l + samples l = NO_OF_POSITION_SAMPLES cfg /\
     counted_samples l <= NO_OF_POSITION_SAMPLES cfg).
Proof.
  intros HN. split.
  - intros w0 l w' H.
    destruct (budget_kept_reach dev cfg w0 l w' H) as (Hsum & Hs & Hc).
    rewrite to_u32_small in Hsum by exact HN. lia.
  - destruct (wp_done _ _ _ _ (sampling_wp dev cfg w))
      as (l & w1 & E & (Hsum & Hs & Hc) & _ & n & wl & wl' & El & _).
    exists l, w1. split; [exact E |].
    rewrite to_u32_small in Hsum by exact HN.
    split; [| lia].
    unfold sampling_loop in El.
    destruct (while_reach dev _ _ _ _ _ _ _ _ _ El) as (w'' & Hreach & _).
    eauto.
Qed.

Lemma completed_count_within_budget_witness :
  exists l w1,
    run (scripted [GPIO_PIN_RESET; GPIO_PIN_SET] [])
        (TP_Read_Coordinates_sampling (sample_config 3)) idle = Done l w1 /\
    (exists w0 w',
       loop_reach (scripted [GPIO_PIN_RESET; GPIO_PIN_SET] [])
         sampling_cond (sampling_body (sample_config 3))
         (locals_init (sample_config 3), w0) (l, w')) /\
    counted_samples l + samples l = NO_OF_POSITION_SAMPLES (sample_config 3) /\
    counted_samples l <= NO_OF_POSITION_SAMPLES (sample_config 3).
Proof.
  apply (proj2 (completed_count_within_budget (sample_config 3)
                  (scripted [GPIO_PIN_RESET; GPIO_PIN_SET] []) idle
                  ltac:(simpl; lia))).
Defined.

(** A run is determined by the values read along it. *)
Lemma run_replay {A} dev (m : io A) :
  forall w a w',
    run dev m w = Done a w' ->
    exists evs,
      trace w' = evs ++ trace w /\
      forall rest, replay m (rev (readings evs) ++ rest) = Some (a, rest).
Proof.
  induction m as [a0 | p s k IH | p k IH | e]; intros w a w' H; cbn [run] in H.
  - inversion H; subst. exists []. split; reflexivity.
  - destruct (IH _ _ _ H) as (evs & Ht & Hr). cbn [trace log] in Ht.
    replace (trace (set_pin p s w)) with (trace w) in Ht
      by (destruct p; reflexivity).
    exists (evs ++ [EvWrite p s]). split.
    + rewrite <- app_assoc. exact Ht.
    + intros rest. cbn [replay].
      replace (readings (evs ++ [EvWrite p s])) with (readings evs);
        [apply Hr |].
      clear. induction evs as [| [q t | q t] evs IH]; cbn [readings app];
        congruence.
  - destruct (IH _ _ _ _ H) as (evs & Ht & Hr). cbn [trace log] in Ht.
    exists (evs ++ [EvRead p (dev w p)]). split.
    + rewrite <- app_assoc. exact Ht.
    + intros rest.
      replace (readings (evs ++ [EvRead p (dev w p)]))
        with (readings evs ++ [(p, dev w p)]).
      * rewrite rev_app_distr. cbn [rev app replay]. apply Hr.
      * clear. induction evs as [| [q t | q t] evs IH]; cbn [readings app];
          congruence.
  - discriminate.
Qed.

Lemma events_since_app w w' evs :
  trace w' = evs ++ trace w -> events_since w w' = evs.
Proof.
  intros H. unfold events_since. rewrite H, length_app.
  replace (length evs + length (trace w) - length (trace w))%nat
    with (length evs + 0)%nat by lia.
  rewrite firstn_app_2. cbn [firstn]. apply app_nil_r.
Qed.

(** The caller's array has no influence on the outcome. *)
Lemma read_coordinates_array dev cfg c c' w :
  run dev (TP_Read_Coordinates cfg c) w = run dev (TP_Read_Coordinates cfg c') w.
Proof.
  unfold TP_Read_Coordinates. rewrite !run_bind.
  destruct (run dev (TP_Read_Coordinates_sampling cfg) w); [| reflexivity].
  rewrite !validate_run. reflexivity.
Qed.

(** C10.  Two consecutive calls of [TP_Read_Coordinates] during which the
    controller gives the same readings, press line and data-in alike,
    return the same status and the same coordinate pair; in particular two
    consecutive successful calls return identical (x, y). *)
Theorem read_coordinates_repeatable cfg dev c1 c2 w0 w1 w2 r1 r2 :
  run dev (TP_Read_Coordinates cfg c1) w0 = Done r1 w1 ->
  run dev (TP_Read_Coordinates cfg c2) w1 = Done r2 w2 ->
  readings (events_since w0 w1) = readings (events_since w1 w2) ->
  r1 = r2.
Proof.
  intros H1 H2 Hsame.
  rewrite (read_coordinates_array dev cfg c2 c1) in H2.
  destruct (run_replay dev _ _ _ _ H1) as (evs1 & Ht1 & Hr1).
  destruct (run_replay dev _ _ _ _ H2) as (evs2 & Ht2 & Hr2).
  rewrite (events_since_app _ _ _ Ht1), (events_since_app _ _ _ Ht2) in Hsame.
  specialize (Hr1 []). specialize (Hr2 []).
  rewrite Hsame, Hr2 in Hr1. congruence.
Qed.

Lemma read_coordinates_repeatable_witness :
  exists w1 w2,
    run (controller (sample_config 2) 100 200)
        (TP_Read_Coordinates (sample_config 2) (0, 0)) idle
    = Done (61401, 5924, TOUCHPAD_DATA_OK) w1 /\
    run (controller (sample_config 2) 100 200)
        (TP_Read_Coordinates (sample_config 2) (61401, 5924)) w1
    = Done (61401, 5924, TOUCHPAD_DATA_OK) w2.
Proof.
  set (dev := controller (sample_config 2) 100 200).
  set (w1 := world_of (run dev (TP_Read_Coordinates (sample_config 2) (0, 0))
                           idle) idle).
  set (w2 := world_of (run dev (TP_Read_Coordinates (sample_config 2)
                                  (61401, 5924)) w1) idle).
  set (r2 := match run dev (TP_Read_Coordinates (sample_config 2)
                              (61401, 5924)) w1 with
             | Done r _ => r
             | Failed _ => (0, 0, TOUCHPAD_DATA_NOISY)
             end).
  assert (E1 : run dev (TP_Read_Coordinates (sample_config 2) (0, 0)) idle
               = Done (61401, 5924, TOUCHPAD_DATA_OK) w1)
    by (vm_compute; reflexivity).
  assert (E2 : run dev (TP_Read_Coordinates (sample_config 2) (61401, 5924)) w1
               = Done r2 w2)
    by (vm_compute; reflexivity).
  assert (Hs : readings (events_since idle w1) = readings (events_since w1 w2))
    by (vm_compute; reflexivity).
  exists w1, w2. split; [exact E1 |].
  rewrite (read_coordinates_repeatable _ _ _ _ _ _ _ _ _ E1 E2 Hs).
  exact E2.
Defined.

(** ** Further properties: the command byte on the wire *)

Section CommandByte.

Variable dev : device.

(** Testing bit 7 with the mask 0x80. *)
Lemma land_128 a : (Z.land a 128 =? 0) = negb (Z.testbit a 7).
Proof.
  destruct (Z.testbit a 7) eqn:E; cbn [negb].
  - apply Z.eqb_neq. intros H.
    assert (H7 : Z.testbit (Z.land a 128) 7 = true).
    { rewrite Z.land_spec, E. reflexivity. }
    rewrite H, Z.testbit_0_l in H7. discriminate.
  - apply Z.eqb_eq. apply Z.bits_inj'. intros n Hn.
    rewrite Z.land_spec, Z.bits_0. change 128 with (2 ^ 7).
    rewrite Z.pow2_bits_eqb by lia.
    destruct (Z.eqb_spec 7 n) as [<- | Hne].
    + rewrite E. reflexivity.
    + apply andb_false_r.
Qed.

(** The byte left in [value] after [n] shifts, and its top bit. *)
Lemma shifted_top_bit v n :
  0 <= n <= 7 ->
  Z.testbit ((v * 2 ^ n) mod 2 ^ 8) 7 = Z.testbit v (7 - n).
Proof.
  intros Hn. rewrite Z.mod_pow2_bits_low by lia.
  rewrite Z.mul_pow2_bits by lia. reflexivity.
Qed.

Lemma shifted_next v n :
  0 <= n ->
  to_u8 (Z.shiftl ((v * 2 ^ n) mod 2 ^ 8) 1) = (v * 2 ^ (n + 1)) mod 2 ^ 8.
Proof.
  intros Hn. unfold to_u8. rewrite Z.shiftl_mul_pow2 by lia.
  rewrite Z.mul_mod_idemp_l by lia.
  rewrite Z.pow_add_r by lia. f_equal. ring.
Qed.

Lemma nth_byte_bits v k :
  (k < 8)%nat ->
  nth k (byte_bits v) GPIO_PIN_RESET = of_bit (Z.testbit v (7 - Z.of_nat k)).
Proof.
  intros Hk.
  do 8 (destruct k as [| k]; [reflexivity |]). lia.
Qed.

(** The bit loop of [TP_Write], event by event. *)
Lemma TP_Write_loop_trace v w :
  wp dev (TP_Write_loop v) w (fun _ w' =>
    cs w' = cs w /\ clk w' = GPIO_PIN_RESET /\
    mosi w' = of_bit (Z.testbit v 0) /\
    trace w' = flat_map write_bit_events (rev (byte_bits v)) ++ trace w).
Proof.
  unfold TP_Write_loop.
  apply (wp_while dev TP_Write_cond TP_Write_body
    (fun n s w' =>
       Z.of_nat n + fst s = 8 /\ 0 <= fst s /\
       snd s = (v * 2 ^ Z.of_nat n) mod 2 ^ 8 /\
       cs w' = cs w /\
       ((0 < n)%nat ->
        clk w' = GPIO_PIN_RESET /\
        mosi w' = of_bit (Z.testbit v (8 - Z.of_nat n))) /\
       exists bits, length bits = n /\
         (forall k, (k < n)%nat ->
            nth k bits GPIO_PIN_RESET = of_bit (Z.testbit v (7 - Z.of_nat k))) /\
         trace w' = flat_map write_bit_events (rev bits) ++ trace w)
    (fun s => Z.to_nat (fst s))).
  - intros n [i value] w0 (Hn & Hi & Hv & Hcs & Hlev & bits & Hl & Hb & Ht).
    cbn [fst snd] in *. unfold TP_Write_cond, TP_Write_body. run_step.
    destruct (0 <? i) eqn:Ei.
    + apply Z.ltb_lt in Ei.
      assert (Eu : to_u8 (i - 1) = i - 1) by (apply to_u8_small; lia).
      rewrite Eu.
      assert (Etop : (Z.land value 128 =? 0)
                     = negb (Z.testbit v (7 - Z.of_nat n))).
      { rewrite land_128, Hv, shifted_top_bit by lia. reflexivity. }
      assert (Enext : to_u8 (Z.shiftl value 1)
                      = (v * 2 ^ Z.of_nat (S n)) mod 2 ^ 8).
      { rewrite Hv, shifted_next by lia. f_equal. f_equal. f_equal. lia. }
      rewrite Etop, Enext, negb_involutive.
      set (b := Z.testbit v (7 - Z.of_nat n)).
      assert (Eb : (if b then HAL_GPIO_WritePin TP_MOSI GPIO_PIN_SET
                    else HAL_GPIO_WritePin TP_MOSI GPIO_PIN_RESET)
                   = HAL_GPIO_WritePin TP_MOSI (of_bit b)) by (now destruct b).
      rewrite Eb. run_step.
      split; [| lia].
      split; [lia |]. split; [lia |]. split; [reflexivity |].
      split; [assumption |]. split.
      * intros _. split; [reflexivity |]. unfold b. f_equal. f_equal. lia.
      * exists (bits ++ [of_bit b]). split; [| split].
        -- rewrite length_app. cbn [length]. lia.
        -- intros k Hk. destruct (Nat.eq_dec k n) as [-> | Hne].
           ++ rewrite <- Hl at 1. rewrite nth_middle. reflexivity.
           ++ rewrite app_nth1 by lia. apply Hb. lia.
        -- rewrite rev_app_distr. cbn [rev app flat_map write_bit_events].
           rewrite Ht. reflexivity.
    + apply Z.ltb_ge in Ei.
      assert (E8 : n = 8%nat) by lia.
      destruct (Hlev ltac:(lia)) as (Hclk & Hmosi).
      split; [assumption |]. split; [assumption |]. split.
      * rewrite Hmosi, E8. reflexivity.
      * replace (byte_bits v) with bits; [exact Ht |].
        apply (nth_ext _ _ GPIO_PIN_RESET GPIO_PIN_RESET).
        -- rewrite Hl, E8. reflexivity.
        -- intros k Hk. rewrite Hb by lia.
           symmetry. apply nth_byte_bits. lia.
  - cbn [fst snd]. split; [lia |]. split; [lia |]. split.
    + unfold to_u8. f_equal. cbn. ring.
    + split; [reflexivity |]. split; [lia |].
      exists []. split; [reflexivity |]. split; [intros k Hk; lia | reflexivity].
  - cbn [fst]. lia.
Qed.

Lemma TP_Write_trace v w :
  wp dev (TP_Write v) w (fun _ w' =>
    cs w' = cs w /\ clk w' = GPIO_PIN_RESET /\
    mosi w' = of_bit (Z.testbit v 0) /\
    trace w' = flat_map write_bit_events (rev (byte_bits v))
               ++ EvWrite TP_CLK GPIO_PIN_RESET :: trace w).
Proof.
  unfold TP_Write. apply wp_write_bind.
  apply wp_bind.
  eapply wp_mono; [apply TP_Write_loop_trace |].
  intros r w' (Hcs & Hclk & Hmosi & Ht). run_step.
  cbn [cs trace log set_pin] in *. auto.
Qed.

End CommandByte.

(** X1.  [TP_Write] first forces the clock low and then, for each of the 8
    bits of the byte from the most significant down, sets data-out to the
    bit and pulses the clock high then low.  It reads no input, leaves
    chip-select alone and ends with the clock low and data-out at bit 0.
    Only the low 8 bits of the argument matter. *)
Theorem TP_Write_msb_first dev v w :
  exists w',
    run dev (TP_Write v) w = Done tt w' /\
    trace w' = flat_map write_bit_events (rev (byte_bits v))
               ++ EvWrite TP_CLK GPIO_PIN_RESET :: trace w /\
    cs w' = cs w /\ clk w' = GPIO_PIN_RESET /\
    mosi w' = of_bit (Z.testbit v 0) /\
    byte_bits v = byte_bits (to_u8 v).
Proof.
  destruct (wp_done _ _ _ _ (TP_Write_trace dev v w))
    as ([] & w' & E & Hcs & Hclk & Hmosi & Ht).
  exists w'. repeat split; try assumption.
  apply (nth_ext _ _ GPIO_PIN_RESET GPIO_PIN_RESET); [reflexivity |].
  intros k Hk. change (length (byte_bits v)) with 8%nat in Hk.
  rewrite !nth_byte_bits by exact Hk.
  unfold to_u8. rewrite Z.mod_pow2_bits_low by lia. reflexivity.
Qed.

Lemma TP_Write_msb_first_witness :
  byte_bits 464 = byte_bits 208 /\
  exists w',
    run (scripted [] []) (TP_Write 464) idle = Done tt w' /\
    trace w' = flat_map write_bit_events (rev (byte_bits 208))
               ++ EvWrite TP_CLK GPIO_PIN_RESET :: trace idle.
Proof.
  destruct (TP_Write_msb_first (scripted [] []) 464 idle)
    as (w' & E & Ht & _ & _ & _ & Hb).
  split; [exact Hb |]. exists w'. split; [exact E |].
  rewrite Ht, Hb. reflexivity.
Defined.

(** ** Further properties: what a receiver sees *)

Section Receiver.

Lemma received_app e evs1 evs2 r :
  received e (evs1 ++ evs2) r = received e evs1 (received e evs2 r).
Proof. unfold received. apply fold_right_app. Qed.

(** One bit of [TP_Write] seen from the other end of the wire: with the
    clock low beforehand, either kind of edge takes the bit in once. *)
Lemma received_bit e b r :
  rx_clk r = GPIO_PIN_RESET ->
  received e (write_bit_events b) r
  = mkReceiver GPIO_PIN_RESET b
      ((2 * rx_reg r + Z.b2z (pin_bit b)) mod 2 ^ 8).
Proof.
  intros H. unfold received, write_bit_events.
  cbn [fold_right receive rx_clk rx_mosi rx_reg]. rewrite H.
  destruct e; reflexivity.
Qed.

(** The register after a run of bits, up to the 8 bits it holds. *)
Lemma received_bits e bits :
  forall r,
    rx_clk r = GPIO_PIN_RESET ->
    rx_clk (received e (flat_map write_bit_events (rev bits)) r)
    = GPIO_PIN_RESET /\
    rx_reg (received e (flat_map write_bit_events (rev bits)) r) mod 2 ^ 8
    = assemble bits (rx_reg r) mod 2 ^ 8 /\
    (bits <> [] ->
     0 <= rx_reg (received e (flat_map write_bit_events (rev bits)) r) < 2 ^ 8).
Proof.
  induction bits as [| b bits IH] using rev_ind; intros r Hr.
  - cbn [rev flat_map]. unfold received. cbn [fold_right assemble fold_left].
    repeat split; auto; congruence.
  - rewrite rev_app_distr. cbn [rev app flat_map].
    rewrite received_app.
    destruct (IH r Hr) as (Hclk & Hreg & _).
    rewrite received_bit by exact Hclk.
    cbn [rx_clk rx_reg]. split; [reflexivity |].
    split; [| intros _; apply Z.mod_pos_bound; lia].
    rewrite assemble_snoc, Z.mod_mod by lia.
    rewrite (Z.add_mod (2 * _)), (Z.mul_mod 2), Hreg by lia.
    rewrite <- (Z.mul_mod 2), <- Z.add_mod by lia. reflexivity.
Qed.

(** A word assembled from the bits of [v], high bit first, is [v] up to
    its length, whatever the accumulator held before. *)
Lemma assemble_bits_of v bits acc :
  (forall k, (k < length bits)%nat ->
     pin_bit (nth k bits GPIO_PIN_RESET)
     = Z.testbit v (Z.of_nat (length bits - 1 - k))) ->
  assemble bits acc mod 2 ^ Z.of_nat (length bits)
  = v mod 2 ^ Z.of_nat (length bits).
Proof.
  intros H. apply Z.bits_inj'. intros j Hj.
  destruct (Z.lt_ge_cases j (Z.of_nat (length bits))) as [Hlt | Hge].
  - rewrite !Z.mod_pow2_bits_low by lia.
    replace j with (Z.of_nat (length bits - 1 - (length bits - 1 - Z.to_nat j)))
      at 1 by lia.
    rewrite assemble_testbit by lia.
    rewrite H by lia. f_equal. lia.
  - rewrite !Z.mod_pow2_bits_high by lia. reflexivity.
Qed.

Lemma pin_bit_of_bit b : pin_bit (of_bit b) = b.
Proof. now destruct b. Qed.

Lemma assemble_byte_bits v acc : assemble (byte_bits v) acc mod 2 ^ 8 = to_u8 v.
Proof.
  unfold to_u8.
  apply (assemble_bits_of v (byte_bits v) acc).
  intros k Hk. change (length (byte_bits v)) with 8%nat in *.
  rewrite nth_byte_bits, pin_bit_of_bit by exact Hk. f_equal. lia.
Qed.

End Receiver.

(** X2.  After [TP_Write v], an 8-bit shift register clocked by the
    driver's clock line and fed from data-out holds the low 8 bits of [v],
    whether it takes data in on rising or on falling clock edges, and
    whatever it held and whatever the lines were before the call. *)
Theorem TP_Write_received dev v w :
  exists w',
    run dev (TP_Write v) w = Done tt w' /\
    forall e r,
      rx_reg (received e (events_since w w') r) = to_u8 v /\
      rx_clk (received e (events_since w w') r) = GPIO_PIN_RESET.
Proof.
  destruct (wp_done _ _ _ _ (TP_Write_trace dev v w))
    as ([] & w' & E & _ & _ & _ & Ht).
  exists w'. split; [exact E |]. intros e r.
  rewrite (events_since_app w w'
             (flat_map write_bit_events (rev (byte_bits v))
              ++ [EvWrite TP_CLK GPIO_PIN_RESET]))
    by (rewrite <- app_assoc; exact Ht).
  rewrite received_app.
  set (r1 := received e [EvWrite TP_CLK GPIO_PIN_RESET] r).
  assert (H1 : rx_clk r1 = GPIO_PIN_RESET) by reflexivity.
  destruct (received_bits e (byte_bits v) r1 H1) as (Hclk & Hreg & Hrange).
  split; [| exact Hclk].
  rewrite assemble_byte_bits in Hreg. rewrite <- Hreg.
  symmetry. apply Z.mod_small. apply Hrange. discriminate.
Qed.

(** ** Further properties: the history of a coordinate read *)

Section History.

Lemma irq_levels_app evs1 evs2 :
  irq_levels (evs1 ++ evs2) = irq_levels evs1 ++ irq_levels evs2.
Proof.
  induction evs1 as [| [p s | [|] s] evs1 IH]; cbn [app irq_levels];
    rewrite ?IH; reflexivity.
Qed.

Lemma cs_levels_app evs1 evs2 :
  cs_levels (evs1 ++ evs2) = cs_levels evs1 ++ cs_levels evs2.
Proof.
  induction evs1 as [| [[| |] s | p s] evs1 IH]; cbn [app cs_levels];
    rewrite ?IH; reflexivity.
Qed.

Lemma reads_of_app p evs1 evs2 :
  reads_of p (evs1 ++ evs2) = (reads_of p evs1 + reads_of p evs2)%nat.
Proof.
  induction evs1 as [| [q s | q s] evs1 IH]; cbn [app reads_of];
    [reflexivity | exact IH |].
  destruct p, q; rewrite IH; reflexivity.
Qed.

Lemma last_level_app p evs1 evs2 d :
  last_level p (evs1 ++ evs2) d = last_level p evs1 (last_level p evs2 d).
Proof.
  induction evs1 as [| [q s | q s] evs1 IH]; cbn [app last_level];
    [reflexivity | | exact IH].
  destruct (same_pin p q); [reflexivity | exact IH].
Qed.

(** The levels of the output lines always agree with the history. *)
Lemma run_levels {A} dev (m : io A) :
  forall w a w',
    run dev m w = Done a w' ->
    forall p, level p w' = last_level p (events_since w w') (level p w).
Proof.
  induction m as [a0 | q s k IH | q k IH | e]; intros w a w' H p;
    cbn [run] in H.
  - inversion H; subst.
    rewrite (events_since_app w' w' []) by reflexivity. reflexivity.
  - destruct (run_replay dev _ _ _ _ H) as (evs & Ht & _).
    pose proof (IH _ _ _ H p) as Hl.
    rewrite (events_since_app _ _ _ Ht) in Hl.
    cbn [trace log] in Ht.
    replace (trace (set_pin q s w)) with (trace w) in Ht
      by (destruct q; reflexivity).
    rewrite (events_since_app w w' (evs ++ [EvWrite q s]))
      by (rewrite <- app_assoc; exact Ht).
    rewrite last_level_app, Hl. f_equal.
    cbn [last_level]. destruct p, q, w; reflexivity.
  - destruct (run_replay dev _ _ _ _ H) as (evs & Ht & _).
    pose proof (IH _ _ _ _ H p) as Hl.
    rewrite (events_since_app _ _ _ Ht) in Hl.
    cbn [trace log] in Ht.
    rewrite (events_since_app w w' (evs ++ [EvRead q (dev w q)]))
      by (rewrite <- app_assoc; exact Ht).
    rewrite last_level_app, Hl. reflexivity.
  - discriminate.
Qed.

(** Summary of the 16 bit rounds of [TP_Read]. *)
Lemma read_bits_summary bits :
  length (flat_map read_bit_events bits) = (3 * length bits)%nat /\
  irq_levels (flat_map read_bit_events bits) = [] /\
  cs_levels (flat_map read_bit_events bits) = [] /\
  reads_of TP_MISO (flat_map read_bit_events bits) = length bits /\
  forall d, bits <> [] ->
    last_level TP_CLK (flat_map read_bit_events bits) d = GPIO_PIN_RESET.
Proof.
  induction bits as [| b bits (Hl & Hi & Hc & Hm & Hk)].
  - repeat split; try reflexivity. intros d H. congruence.
  - cbn [flat_map read_bit_events app length irq_levels cs_levels reads_of
         last_level same_pin].
    rewrite Hl, Hi, Hc, Hm. repeat split; lia.
Qed.

(** Summary of the 8 bit rounds of [TP_Write]. *)
Lemma write_bits_summary v :
  length (flat_map write_bit_events (rev (byte_bits v))) = 24%nat /\
  irq_levels (flat_map write_bit_events (rev (byte_bits v))) = [] /\
  cs_levels (flat_map write_bit_events (rev (byte_bits v))) = [] /\
  reads_of TP_MISO (flat_map write_bit_events (rev (byte_bits v))) = 0%nat.
Proof. repeat split. Qed.

End History.

Section CallHistory.

Variable dev : device.
Variable cfg : config.

Lemma quiet_app a b c d evs1 evs2 :
  quiet_history a b evs1 -> quiet_history c d evs2 ->
  quiet_history (a + c) (b + d) (evs1 ++ evs2).
Proof.
  intros (Hl1 & Hi1 & Hc1 & Hm1) (Hl2 & Hi2 & Hc2 & Hm2).
  unfold quiet_history.
  rewrite length_app, irq_levels_app, cs_levels_app, reads_of_app.
  rewrite Hl1, Hl2, Hi1, Hi2, Hc1, Hc2, Hm1, Hm2. auto.
Qed.

Lemma quiet_write v :
  quiet_history 25 0
    (flat_map write_bit_events (rev (byte_bits v))
     ++ [EvWrite TP_CLK GPIO_PIN_RESET]).
Proof. repeat split. Qed.

Lemma quiet_read bits :
  length bits = 16%nat ->
  quiet_history 48 16 (flat_map read_bit_events (rev bits)).
Proof.
  intros H.
  destruct (read_bits_summary (rev bits)) as (Hl & Hi & Hc & Hm & _).
  rewrite length_rev, H in *. repeat split; assumption.
Qed.

(** One round of the sampling loop: 146 pin operations, 32 of them reads
    of data-in, none on the press line or chip-select. *)
Lemma sampling_body_history l w :
  wp dev (sampling_body cfg l) w (fun l' w' =>
    samples l' = to_u32 (samples l - 1) /\
    counted_samples l' = to_u32 (counted_samples l + 1) /\
    (exists rx ry,
       0 <= rx < 2 ^ 16 /\ 0 <= ry < 2 ^ 16 /\
       calculating_x l' = to_u32 (calculating_x l + rx) /\
       calculating_y l' = to_u32 (calculating_y l + ry)) /\
    exists evs, trace w' = evs ++ trace w /\ quiet_history 146 32 evs).
Proof.
  unfold sampling_body.
  apply wp_bind. eapply wp_mono; [apply TP_Write_trace |].
  intros _ w1 (_ & _ & _ & Ht1).
  apply wp_bind. eapply wp_mono; [apply TP_Read_wp |].
  intros ry w2 (_ & _ & Hry & by_ & Hly & Ht2 & _).
  apply wp_bind. eapply wp_mono; [apply TP_Write_trace |].
  intros _ w3 (_ & _ & _ & Ht3).
  apply wp_bind. eapply wp_mono; [apply TP_Read_wp |].
  intros rx w4 (_ & _ & Hrx & bx & Hlx & Ht4 & _).
  run_step. cbn [samples counted_samples calculating_x calculating_y].
  split; [reflexivity |]. split; [reflexivity |].
  split; [exists rx, ry; auto |].
  exists (flat_map read_bit_events (rev bx)
          ++ (flat_map write_bit_events (rev (byte_bits (CMD_RDX cfg)))
              ++ [EvWrite TP_CLK GPIO_PIN_RESET])
          ++ flat_map read_bit_events (rev by_)
          ++ (flat_map write_bit_events (rev (byte_bits (CMD_RDY cfg)))
              ++ [EvWrite TP_CLK GPIO_PIN_RESET])).
  split.
  - rewrite Ht4, Ht3, Ht2, Ht1. rewrite <- !app_assoc. reflexivity.
  - apply (quiet_app 48 16 98 16); [apply quiet_read; exact Hlx |].
    apply (quiet_app 25 0 73 16); [apply quiet_write |].
    apply (quiet_app 48 16 25 0); [apply quiet_read; exact Hly |].
    apply quiet_write.
Qed.

(** The sampling loop with its history: [n] full rounds, each opened by a
    low reading of the press line, and one more reading, high, if the loop
    stops before the budget is used up. *)
Lemma sampling_loop_history w :
  wp dev (sampling_loop cfg (locals_init cfg)) w (fun r w' =>
    Z.of_nat (fst r) = counted_samples (snd r) /\
    budget_kept cfg (snd r) /\
    0 <= calculating_x (snd r) <= 65535 * counted_samples (snd r) /\
    0 <= calculating_y (snd r) <= 65535 * counted_samples (snd r) /\
    exists evs,
      trace w' = evs ++ trace w /\
      cs_levels evs = [] /\
      reads_of TP_MISO evs = (32 * fst r)%nat /\
      ((samples (snd r) = 0 /\
        length evs = (147 * fst r)%nat /\
        irq_levels evs = repeat GPIO_PIN_RESET (fst r))
       \/
       (0 < samples (snd r) /\
        length evs = (147 * fst r + 1)%nat /\
        irq_levels evs = GPIO_PIN_SET :: repeat GPIO_PIN_RESET (fst r)))).
Proof.
  unfold sampling_loop.
  apply (wp_while dev sampling_cond (sampling_body cfg)
    (fun n l w' =>
       Z.of_nat n = counted_samples l /\ budget_kept cfg l /\
       0 <= calculating_x l <= 65535 * counted_samples l /\
       0 <= calculating_y l <= 65535 * counted_samples l /\
       exists evs,
         trace w' = evs ++ trace w /\
         cs_levels evs = [] /\
         reads_of TP_MISO evs = (32 * n)%nat /\
         length evs = (147 * n)%nat /\
         irq_levels evs = repeat GPIO_PIN_RESET n)
    (fun l => Z.to_nat (samples l))).
  - intros n l w0 (Hn & (Hsum & Hs & Hc) & Hx & Hy & evs & Ht & Hcs & Hm & Hl & Hi).
    pose proof (to_u32_range (NO_OF_POSITION_SAMPLES cfg)) as HN.
    unfold sampling_cond.
    destruct (0 <? samples l) eqn:E.
    + apply Z.ltb_lt in E. apply wp_read_bind.
      destruct (dev w0 TP_IRQ) eqn:Eirq; run_step.
      * change (wp dev (sampling_body cfg l)
                  (log (EvRead TP_IRQ GPIO_PIN_RESET) w0)
                  (fun s' w2 =>
                     (Z.of_nat (S n) = counted_samples s' /\
                      budget_kept cfg s' /\
                      0 <= calculating_x s' <= 65535 * counted_samples s' /\
                      0 <= calculating_y s' <= 65535 * counted_samples s' /\
                      exists evs0,
                        trace w2 = evs0 ++ trace w /\
                        cs_levels evs0 = [] /\
                        reads_of TP_MISO evs0 = (32 * S n)%nat /\
                        length evs0 = (147 * S n)%nat /\
                        irq_levels evs0 = repeat GPIO_PIN_RESET (S n)) /\
                     (Z.to_nat (samples s') < Z.to_nat (samples l))%nat)).
        eapply wp_mono; [apply sampling_body_history |].
        intros l' w' (Es & Ec & (rx & ry & Hrx & Hry & Ex & Ey)
                      & evb & Htb & Hlb & Hib & Hcb & Hmb).
        cbn [trace log] in Htb.
        rewrite to_u32_small in Es by lia.
        rewrite to_u32_small in Ec by lia.
        assert (Hx' : 0 <= calculating_x l' <= calculating_x l + rx).
        { rewrite Ex. unfold to_u32. split.
          - apply Z.mod_pos_bound. lia.
          - apply Z.mod_le; lia. }
        assert (Hy' : 0 <= calculating_y l' <= calculating_y l + ry).
        { rewrite Ey. unfold to_u32. split.
          - apply Z.mod_pos_bound. lia.
          - apply Z.mod_le; lia. }
        split; [| lia].
        split; [lia |]. split; [unfold budget_kept; lia |].
        split; [lia |]. split; [lia |].
        exists (evb ++ EvRead TP_IRQ GPIO_PIN_RESET :: evs).
        rewrite cs_levels_app, reads_of_app, length_app, irq_levels_app.
        cbn [cs_levels reads_of length irq_levels].
        rewrite Hcb, Hmb, Hlb, Hib, Hcs, Hm, Hl, Hi.
        split; [rewrite Htb, Ht, <- app_assoc; reflexivity |].
        split; [reflexivity |]. split; [lia |]. split; [lia |].
        reflexivity.
      * cbn [fst snd]. split; [exact Hn |].
        split; [unfold budget_kept; auto |].
        split; [exact Hx |]. split; [exact Hy |].
        exists (EvRead TP_IRQ GPIO_PIN_SET :: evs).
        cbn [cs_levels reads_of length irq_levels trace log app].
        rewrite Ht, Hcs, Hm, Hl, Hi.
        split; [reflexivity |]. split; [reflexivity |]. split; [reflexivity |].
        right. split; [exact E |]. split; [lia | reflexivity].
    + apply Z.ltb_ge in E. run_step. split; [exact Hn |].
      split; [unfold budget_kept; auto |].
      split; [exact Hx |]. split; [exact Hy |].
      exists evs. split; [exact Ht |]. split; [exact Hcs |].
      split; [exact Hm |]. left. split; [lia |]. auto.
  - split; [reflexivity |]. split; [apply budget_kept_init |].
    unfold locals_init. cbn [calculating_x calculating_y counted_samples].
    split; [lia |]. split; [lia |].
    exists []. repeat split.
  - lia.
Qed.

End CallHistory.

Section CallSummary.

Variable dev : device.
Variable cfg : config.

(** A whole call that returns: its history and its result. *)
Lemma read_coordinates_history c w r w' :
  run dev (TP_Read_Coordinates cfg c) w = Done r w' ->
  exists n l v evs,
    (exists w1, run dev (TP_Read_Coordinates_sampling cfg) w = Done l w1) /\
    trace w' = evs ++ trace w /\
    Z.of_nat n = counted_samples l /\
    counted_samples l <= to_u32 (NO_OF_POSITION_SAMPLES cfg) /\
    length evs = (147 * n + 6)%nat /\
    cs_levels evs = [GPIO_PIN_SET; GPIO_PIN_RESET; GPIO_PIN_SET] /\
    reads_of TP_MISO evs = (32 * n)%nat /\
    irq_levels evs = v :: repeat GPIO_PIN_RESET n /\
    ((v = GPIO_PIN_RESET /\
      counted_samples l = to_u32 (NO_OF_POSITION_SAMPLES cfg) /\
      0 <= calculating_x l / counted_samples l < 2 ^ 16 /\
      0 <= calculating_y l / counted_samples l < 2 ^ 16 /\
      r = (to_u16 (x_pixel cfg (negate16 (calculating_x l / counted_samples l))),
           to_u16 (y_pixel cfg (negate16 (calculating_y l / counted_samples l))),
           TOUCHPAD_DATA_OK))
     \/
     (v = GPIO_PIN_SET /\ r = (0, 0, TOUCHPAD_DATA_NOISY))).
Proof.
  destruct (wp_done _ _ _ _ (sampling_loop_history dev cfg (armed w)))
    as ([n l] & wl & E & Hn & (Hsum & Hs & Hc) & Hx & Hy
        & evs & Ht & Hcs & Hm & Hexit).
  set (w1 := log (EvWrite TP_CS GPIO_PIN_SET) (set_pin TP_CS GPIO_PIN_SET wl)).
  assert (Hsamp : run dev (TP_Read_Coordinates_sampling cfg) w = Done l w1).
  { unfold TP_Read_Coordinates_sampling.
    cbn [bind HAL_GPIO_WritePin run]. fold (armed w).
    rewrite run_bind, E. reflexivity. }
  unfold TP_Read_Coordinates. rewrite run_bind, Hsamp.
  cbn [fst snd] in *.
  rewrite validate_run.
  assert (Ht1 : trace w1
                = (EvWrite TP_CS GPIO_PIN_SET :: evs
                   ++ [EvWrite TP_CS GPIO_PIN_RESET; EvWrite TP_CS GPIO_PIN_SET;
                       EvWrite TP_MOSI GPIO_PIN_SET; EvWrite TP_CLK GPIO_PIN_SET])
                  ++ trace w).
  { unfold w1. cbn [trace log set_pin]. rewrite Ht. cbn [app].
    rewrite <- app_assoc. reflexivity. }
  pose proof (to_u32_range (NO_OF_POSITION_SAMPLES cfg)) as HN.
  destruct (counted_samples l =? to_u32 (NO_OF_POSITION_SAMPLES cfg)) eqn:Ec.
  - apply Z.eqb_eq in Ec. cbn [andb].
    destruct Hexit as [(Hs0 & Hl & Hi) | (Hs0 & _)]; [| lia].
    destruct (dev w1 TP_IRQ) eqn:Eirq; cbn [pin_value Z.eqb].
    + destruct (counted_samples l =? 0) eqn:E0; [discriminate |].
      apply Z.eqb_neq in E0.
      destruct (X_TRANSLATION cfg =? 0); [discriminate |].
      destruct (Y_TRANSLATION cfg =? 0); [discriminate |].
      intros H. inversion H; subst r w'. clear H.
      assert (Hpos : 0 < counted_samples l) by lia.
      assert (Hax : 0 <= calculating_x l / counted_samples l < 2 ^ 16).
      { split; [apply Z.div_pos; lia |].
        apply Z.le_lt_trans with 65535; [| lia].
        apply Z.div_le_upper_bound; lia. }
      assert (Hay : 0 <= calculating_y l / counted_samples l < 2 ^ 16).
      { split; [apply Z.div_pos; lia |].
        apply Z.le_lt_trans with 65535; [| lia].
        apply Z.div_le_upper_bound; lia. }
      exists n, l, GPIO_PIN_RESET.
      eexists. split; [exists w1; reflexivity |].
      split; [cbn [trace log]; rewrite Ht1; apply app_comm_cons |].
      cbn [length cs_levels reads_of irq_levels].
      rewrite length_app, cs_levels_app, reads_of_app, irq_levels_app.
      rewrite Hl, Hcs, Hm, Hi. cbn [length cs_levels reads_of irq_levels app].
      rewrite app_nil_r.
      split; [exact Hn |]. split; [lia |]. split; [lia |].
      split; [reflexivity |]. split; [lia |]. split; [reflexivity |].
      left.
      rewrite (to_u16_small (calculating_x l / counted_samples l)) by exact Hax.
      rewrite (to_u16_small (calculating_y l / counted_samples l)) by exact Hay.
      auto.
    + intros H. inversion H; subst r w'. clear H.
      exists n, l, GPIO_PIN_SET.
      eexists. split; [exists w1; reflexivity |].
      split; [cbn [trace log]; rewrite Ht1; apply app_comm_cons |].
      cbn [length cs_levels reads_of irq_levels].
      rewrite length_app, cs_levels_app, reads_of_app, irq_levels_app.
      rewrite Hl, Hcs, Hm, Hi. cbn [length cs_levels reads_of irq_levels app].
      rewrite app_nil_r.
      split; [exact Hn |]. split; [lia |]. split; [lia |].
      split; [reflexivity |]. split; [lia |]. split; [reflexivity |].
      right. auto.
  - apply Z.eqb_neq in Ec. cbn [andb].
    destruct Hexit as [(Hs0 & _) | (Hs0 & Hl & Hi)]; [lia |].
    intros H. inversion H; subst r w'. clear H.
    exists n, l, GPIO_PIN_SET.
    eexists. split; [exists w1; reflexivity |].
    split; [exact Ht1 |].
    cbn [length cs_levels reads_of irq_levels].
    rewrite length_app, cs_levels_app, reads_of_app, irq_levels_app.
    rewrite Hl, Hcs, Hm, Hi. cbn [length cs_levels reads_of irq_levels app].
    rewrite app_nil_r.
    split; [exact Hn |]. split; [lia |]. split; [lia |].
    split; [reflexivity |]. split; [lia |]. split; [reflexivity |].
    right. auto.
Qed.

End CallSummary.

(** ** Further properties: statements *)

Lemma last_level_cs evs d :
  last_level TP_CS evs d = hd d (cs_levels evs).
Proof.
  induction evs as [| [[| |] s | p s] evs IH]; cbn [last_level cs_levels same_pin hd];
    auto.
Qed.

(** X3.  [TP_Read] drives nothing but the clock: it leaves chip-select and
    data-out as they were and the clock low, and its 48 pin operations
    include 16 reads of data-in and no look at the press line. *)
Theorem TP_Read_frame dev w :
  exists v w',
    run dev TP_Read w = Done v w' /\
    cs w' = cs w /\ mosi w' = mosi w /\ clk w' = GPIO_PIN_RESET /\
    quiet_history 48 16 (events_since w w').
Proof.
  destruct (wp_done _ _ _ _ (TP_Read_wp dev w))
    as (v & w' & E & Hcs & Hmosi & _ & bits & Hl & Ht & _).
  exists v, w'. split; [exact E |]. split; [exact Hcs |].
  split; [exact Hmosi |].
  pose proof (run_levels dev _ _ _ _ E TP_CLK) as Hclk.
  rewrite (events_since_app _ _ _ Ht) in *.
  split; [| apply quiet_read; exact Hl].
  cbn [level] in Hclk. rewrite Hclk.
  destruct (read_bits_summary (rev bits)) as (_ & _ & _ & _ & H).
  apply H. intros Hnil.
  apply (f_equal (@length _)) in Hnil. rewrite length_rev, Hl in Hnil.
  discriminate.
Qed.

(** X4.  If the press line reads high at the first check of a call with a
    budget of at least one sample, no command is sent and nothing is read
    from data-in: the call consists of the three line writes of the
    prologue, chip-select low, that one reading and chip-select high, and
    it returns Noisy with (0, 0). *)
Theorem not_pressed_no_exchange dev cfg c w :
  1 <= NO_OF_POSITION_SAMPLES cfg < 2 ^ 32 ->
  dev (armed w) TP_IRQ = GPIO_PIN_SET ->
  exists w',
    run dev (TP_Read_Coordinates cfg c) w
    = Done (0, 0, TOUCHPAD_DATA_NOISY) w' /\
    trace w' = [EvWrite TP_CS GPIO_PIN_SET; EvRead TP_IRQ GPIO_PIN_SET;
                EvWrite TP_CS GPIO_PIN_RESET; EvWrite TP_CS GPIO_PIN_SET;
                EvWrite TP_MOSI GPIO_PIN_SET; EvWrite TP_CLK GPIO_PIN_SET]
               ++ trace w.
Proof.
  intros HN Hirq.
  assert (E32 : to_u32 (NO_OF_POSITION_SAMPLES cfg) = NO_OF_POSITION_SAMPLES cfg)
    by (apply to_u32_small; lia).
  assert (Hloop : run dev (sampling_loop cfg (locals_init cfg)) (armed w)
                  = Done (0%nat, locals_init cfg)
                         (log (EvRead TP_IRQ GPIO_PIN_SET) (armed w))).
  { unfold sampling_loop. cbn [while]. rewrite run_bind.
    unfold sampling_cond at 1. cbn [samples locals_init]. rewrite E32.
    destruct (0 <? NO_OF_POSITION_SAMPLES cfg) eqn:E;
      [| apply Z.ltb_ge in E; lia].
    cbn [bind HAL_GPIO_ReadPin run]. rewrite Hirq. reflexivity. }
  unfold TP_Read_Coordinates, TP_Read_Coordinates_sampling.
  rewrite run_bind. cbn [bind HAL_GPIO_WritePin run]. fold (armed w).
  rewrite run_bind, Hloop. cbn [run snd].
  rewrite validate_run. cbn [counted_samples locals_init]. rewrite E32.
  destruct (0 =? NO_OF_POSITION_SAMPLES cfg) eqn:E;
    [apply Z.eqb_eq in E; lia |].
  cbn [andb]. eexists. split; [reflexivity |].
  destruct w; reflexivity.
Qed.

Lemma not_pressed_no_exchange_witness :
  exists w',
    run (scripted [GPIO_PIN_SET] []) (TP_Read_Coordinates (sample_config 4) (9, 9))
        idle
    = Done (0, 0, TOUCHPAD_DATA_NOISY) w' /\
    trace w' = [EvWrite TP_CS GPIO_PIN_SET; EvRead TP_IRQ GPIO_PIN_SET;
                EvWrite TP_CS GPIO_PIN_RESET; EvWrite TP_CS GPIO_PIN_SET;
                EvWrite TP_MOSI GPIO_PIN_SET; EvWrite TP_CLK GPIO_PIN_SET]
               ++ trace idle.
Proof.
  apply not_pressed_no_exchange.
  - simpl. lia.
  - reflexivity.
Defined.

(** X5.  Every call of [TP_Read_Coordinates] that returns, Ok or Noisy,
    has driven chip-select exactly three times, high, low, high in that
    order, and leaves it high. *)
Theorem chip_select_released dev cfg c w r w' :
  run dev (TP_Read_Coordinates cfg c) w = Done r w' ->
  rev (cs_levels (events_since w w'))
  = [GPIO_PIN_SET; GPIO_PIN_RESET; GPIO_PIN_SET] /\
  cs w' = GPIO_PIN_SET.
Proof.
  intros H.
  destruct (read_coordinates_history dev cfg c w r w' H)
    as (n & l & v & evs & _ & Ht & _ & _ & _ & Hcs & _).
  pose proof (run_levels dev _ _ _ _ H TP_CS) as Hlev.
  rewrite (events_since_app _ _ _ Ht) in *.
  rewrite Hcs. split; [reflexivity |].
  cbn [level] in Hlev. rewrite Hlev, last_level_cs, Hcs. reflexivity.
Qed.

Lemma chip_select_released_witness :
  cs (world_of (run (controller (sample_config 2) 100 200)
                    (TP_Read_Coordinates (sample_config 2) (0, 0)) idle) idle)
  = GPIO_PIN_SET.
Proof.
  apply (chip_select_released (controller (sample_config 2) 100 200)
           (sample_config 2) (0, 0) idle (61401, 5924, TOUCHPAD_DATA_OK)).
  vm_compute. reflexivity.
Defined.





(** X8.  On success each average fits 16 bits, even if a 32-bit sum has
    wrapped around: copying it into the [uint16_t] variable loses nothing,
    and the coordinates are the transform of the negated averages
    themselves. *)
Theorem average_fits_16_bits dev cfg c w xy w' :
  run dev (TP_Read_Coordinates cfg c) w = Done (xy, TOUCHPAD_DATA_OK) w' ->
  exists l w1,
    run dev (TP_Read_Coordinates_sampling cfg) w = Done l w1 /\
    0 <= calculating_x l / counted_samples l < 2 ^ 16 /\
    0 <= calculating_y l / counted_samples l < 2 ^ 16 /\
    xy = (to_u16 (x_pixel cfg (negate16 (calculating_x l / counted_samples l))),
          to_u16 (y_pixel cfg (negate16 (calculating_y l / counted_samples l)))).
Proof.
  intros H.
  destruct (read_coordinates_history dev cfg c w _ w' H)
    as (n & l & v & evs & (w1 & Hs) & _ & _ & _ & _ & _ & _ & _ & Hres).
  exists l, w1. split; [exact Hs |].
  destruct Hres as [(_ & _ & Hx & Hy & E) | (_ & E)]; [| discriminate].
  inversion E. auto.
Qed.

Lemma average_fits_16_bits_witness :
  exists l w1,
    run (controller (sample_config 2) 100 200)
        (TP_Read_Coordinates_sampling (sample_config 2)) idle = Done l w1 /\
    0 <= calculating_x l / counted_samples l < 2 ^ 16 /\
    0 <= calculating_y l / counted_samples l < 2 ^ 16 /\
    (61401, 5924)
    = (to_u16 (x_pixel (sample_config 2)
                 (negate16 (calculating_x l / counted_samples l))),
       to_u16 (y_pixel (sample_config 2)
                 (negate16 (calculating_y l / counted_samples l)))).
Proof.
  apply (average_fits_16_bits (controller (sample_config 2) 100 200)
           (sample_config 2) (0, 0) idle (61401, 5924)
           (world_of (run (controller (sample_config 2) 100 200)
                          (TP_Read_Coordinates (sample_config 2) (0, 0)) idle)
                     idle)).
  vm_compute. reflexivity.
Defined.

(** X9.  What the caller's array held before the call has no influence:
    both cells are overwritten on every path, so two calls that differ only
    in the array's content end in the same outcome and line state. *)
Theorem coordinates_overwritten dev cfg c c' w :
  run dev (TP_Read_Coordinates cfg c) w
  = run dev (TP_Read_Coordinates cfg c') w.
Proof.
  unfold TP_Read_Coordinates. rewrite !run_bind.
  destruct (run dev (TP_Read_Coordinates_sampling cfg) w) as [l w1 | e];
    [| reflexivity].
  rewrite !validate_run. reflexivity.
Qed.

(** ** Further properties: a full exchange with a decoding controller *)

Section DecodingController.

Variable cfg : config.
Variables Rx Ry : Z.

Lemma pin_value_b2z s : pin_value s = Z.b2z (pin_bit s).
Proof. now destruct s. Qed.

Lemma assemble_range bits :
  0 <= assemble bits 0 < 2 ^ Z.of_nat (length bits).
Proof.
  induction bits as [| b bits IH] using rev_ind.
  - cbn. lia.
  - rewrite assemble_snoc, length_app. cbn [length].
    replace (Z.of_nat (length bits + 1)) with (Z.succ (Z.of_nat (length bits)))
      by lia.
    rewrite Z.pow_succ_r by lia.
    destruct (pin_bit b); cbn [Z.b2z]; lia.
Qed.

(** The controller's view of the wire during the answer: the bit rounds of
    [TP_Read] hide neither the command nor their own number. *)
Lemma last_command_skips_reads n bs rest :
  last_command n (flat_map read_bit_events bs ++ rest) = last_command n rest.
Proof.
  induction bs as [| b bs IH]; [reflexivity |].
  cbn [flat_map read_bit_events app].
  destruct n as [| n]; [destruct rest; reflexivity |].
  cbn [last_command]. exact IH.
Qed.

Lemma miso_reads_counts bs rest :
  miso_reads (flat_map read_bit_events bs ++ rest)
  = (length bs + miso_reads rest)%nat.
Proof.
  induction bs as [| b bs IH]; [reflexivity |].
  cbn [flat_map read_bit_events app miso_reads length]. rewrite IH. reflexivity.
Qed.

(** Decoding the 8 bits of [TP_Write] gives back the byte. *)
Lemma last_command_of_write v rest :
  last_command 8 (flat_map write_bit_events (rev (byte_bits v))
                  ++ EvWrite TP_CLK GPIO_PIN_RESET :: rest)
  = to_u8 v.
Proof.
  rewrite <- (assemble_byte_bits v 0).
  rewrite Z.mod_small by apply (assemble_range (byte_bits v)).
  unfold byte_bits, assemble.
  cbn [seq rev app map flat_map write_bit_events last_command fold_left].
  rewrite !pin_value_b2z.
  replace (last_command 0 (EvWrite TP_CLK GPIO_PIN_RESET :: rest)) with 0
    by reflexivity.
  ring.
Qed.

(** The answer phase against the controller, bit by bit. *)
Lemma controller_read_loop v w0 rest :
  trace w0 = flat_map write_bit_events (rev (byte_bits v))
             ++ EvWrite TP_CLK GPIO_PIN_RESET :: rest ->
  wp (controller cfg Rx Ry) TP_Read_loop w0 (fun r _ =>
    snd (snd r)
    = to_u16 (if to_u8 v =? to_u8 (CMD_RDY cfg) then Ry else Rx)).
Proof.
  intros Ht0.
  set (R := if to_u8 v =? to_u8 (CMD_RDY cfg) then Ry else Rx).
  unfold TP_Read_loop.
  apply (wp_while (controller cfg Rx Ry) TP_Read_cond TP_Read_body
    (fun n s w' =>
       Z.of_nat n + fst s = 16 /\ 0 <= fst s /\
       exists bits, length bits = n /\
         trace w' = flat_map read_bit_events (rev bits) ++ trace w0 /\
         snd s = assemble bits 0 /\
         forall k, (k < n)%nat ->
           pin_bit (nth k bits GPIO_PIN_RESET)
           = Z.testbit R (15 - Z.of_nat k))
    (fun s => Z.to_nat (fst s))).
  - intros n [i value] w1 (Hn & Hi & bits & Hl & Ht & Hv & Hb).
    cbn [fst snd] in *. unfold TP_Read_cond, TP_Read_body. run_step.
    destruct (0 <? i) eqn:Ei.
    + apply Z.ltb_lt in Ei.
      assert (Eu : to_u8 (i - 1) = i - 1) by (apply to_u8_small; lia).
      rewrite Eu.
      match goal with |- context [controller cfg Rx Ry ?w2 TP_MISO] =>
        assert (Eb : controller cfg Rx Ry w2 TP_MISO
                     = of_bit (Z.testbit R (15 - Z.of_nat n)))
      end.
      { unfold controller. cbn [trace log set_pin]. rewrite Ht, Ht0.
        change (EvWrite TP_CLK GPIO_PIN_RESET
                :: EvWrite TP_CLK GPIO_PIN_SET
                   :: flat_map read_bit_events (rev bits) ++
                      flat_map write_bit_events (rev (byte_bits v)) ++
                      EvWrite TP_CLK GPIO_PIN_RESET :: rest)
          with ([EvWrite TP_CLK GPIO_PIN_RESET; EvWrite TP_CLK GPIO_PIN_SET]
                ++ flat_map read_bit_events (rev bits) ++
                   flat_map write_bit_events (rev (byte_bits v)) ++
                   EvWrite TP_CLK GPIO_PIN_RESET :: rest).
        cbn [app last_command miso_reads].
        rewrite last_command_skips_reads, last_command_of_write.
        rewrite miso_reads_counts, length_rev, Hl.
        replace (miso_reads
                   (flat_map write_bit_events (rev (byte_bits v)) ++
                    EvWrite TP_CLK GPIO_PIN_RESET :: rest)) with 0%nat
          by reflexivity.
        rewrite Nat.add_0_r. reflexivity. }
      rewrite Eb.
      set (b := of_bit (Z.testbit R (15 - Z.of_nat n))).
      pose proof (assemble_range bits) as Hr. rewrite Hl, <- Hv in Hr.
      assert (Hle : 2 * 2 ^ Z.of_nat n <= 2 ^ 16).
      { rewrite <- Z.pow_succ_r by lia. apply Z.pow_le_mono_r; lia. }
      assert (Es : to_u16 (Z.shiftl value 1) = 2 * value).
      { rewrite Z.shiftl_mul_pow2 by lia. change (2 ^ 1) with 2.
        rewrite to_u16_small; lia. }
      rewrite Es.
      assert (Ev : (if negb (pin_value b =? 0) then to_u16 (2 * value + 1)
                    else 2 * value)
                   = 2 * value + Z.b2z (pin_bit b)).
      { destruct b; cbn [pin_value pin_bit Z.b2z Z.eqb negb];
          [lia | rewrite to_u16_small; lia]. }
      rewrite Ev.
      split; [| lia]. split; [lia |]. split; [lia |].
      exists (bits ++ [b]). repeat split.
      * rewrite length_app. cbn [length]. lia.
      * rewrite rev_app_distr. cbn [rev app flat_map read_bit_events].
        rewrite Ht. reflexivity.
      * rewrite assemble_snoc, <- Hv. reflexivity.
      * intros k Hk. destruct (Nat.eq_dec k n) as [-> | Hne].
        -- rewrite <- Hl at 1. rewrite nth_middle. unfold b.
           apply pin_bit_of_bit.
        -- rewrite app_nth1 by lia. apply Hb. lia.
    + apply Z.ltb_ge in Ei.
      assert (E16 : n = 16%nat) by lia.
      rewrite Hv. unfold to_u16.
      change (2 ^ 16) with (2 ^ Z.of_nat 16). rewrite <- E16, <- Hl.
      rewrite <- (assemble_bits_of R bits 0).
      * symmetry. apply Z.mod_small. apply assemble_range.
      * intros k Hk. rewrite Hl in *. rewrite Hb by lia. f_equal. lia.
  - cbn [fst snd]. split; [lia |]. split; [lia |].
    exists []. repeat split. intros k Hk. lia.
  - cbn [fst]. lia.
Qed.

Lemma controller_exchange v w :
  result_of (run (controller cfg Rx Ry) (exchange v) w)
  = Some (to_u16 (if to_u8 v =? to_u8 (CMD_RDY cfg) then Ry else Rx)).
Proof.
  unfold exchange. rewrite run_bind.
  destruct (wp_done _ _ _ _ (TP_Write_trace (controller cfg Rx Ry) v w))
    as ([] & w1 & E1 & _ & _ & _ & Ht).
  rewrite E1. unfold TP_Read. rewrite run_bind.
  destruct (wp_done _ _ _ _ (controller_read_loop v w1 (trace w) Ht))
    as (r & w2 & E2 & Hr).
  rewrite E2. cbn [run result_of]. rewrite Hr. reflexivity.
Qed.

End DecodingController.

(** X10.  A command written with [TP_Write] and answered through
    [TP_Read] makes a round trip: against a controller that decodes the
    last 8 bits driven on data-out and shifts out a 16-bit word chosen by
    that byte, most significant bit first, the exchange returns exactly
    the chosen word, for every command byte, every pair of words and every
    earlier history of the lines. *)
Theorem exchange_round_trip cfg Rx Ry v w :
  exists w',
    run (controller cfg Rx Ry) (exchange v) w
    = Done (to_u16 (if to_u8 v =? to_u8 (CMD_RDY cfg) then Ry else Rx)) w'.
Proof.
  pose proof (controller_exchange cfg Rx Ry v w) as H.
  destruct (run (controller cfg Rx Ry) (exchange v) w) as [r w' | e];
    [| discriminate].
  cbn [result_of] in H. inversion H. eauto.
Qed.

(** X11.  End to end, from the bits on the wire to the coordinates: with
    distinct X and Y command bytes, non-zero translation divisors and a
    budget between 1 and 65537 samples (for which no 32-bit sum can wrap),
    reading a controller that is pressed and converts to the 16-bit words
    Rx and Ry returns Ok with the transform of (2^16 - Rx) mod 2^16 and
    (2^16 - Ry) mod 2^16, each reduced to 16 bits. *)
Theorem controller_read_coordinates cfg Rx Ry c w :
  1 <= NO_OF_POSITION_SAMPLES cfg <= 65537 ->
  0 <= Rx < 2 ^ 16 ->
  0 <= Ry < 2 ^ 16 ->
  to_u8 (CMD_RDX cfg) <> to_u8 (CMD_RDY cfg) ->
  X_TRANSLATION cfg <> 0 ->
  Y_TRANSLATION cfg <> 0 ->
  exists w',
    run (controller cfg Rx Ry) (TP_Read_Coordinates cfg c) w
    = Done (to_u16 (x_pixel cfg (negate16 Rx)),
            to_u16 (y_pixel cfg (negate16 Ry)),
            TOUCHPAD_DATA_OK) w'.
Proof.
  intros HN HRx HRy Hcmd HX HY.
  apply (steady_read_coordinates (controller cfg Rx Ry) cfg Rx Ry).
  - apply controller_press_held.
  - intros w0 _. rewrite controller_exchange.
    destruct (Z.eqb_spec (to_u8 (CMD_RDX cfg)) (to_u8 (CMD_RDY cfg)));
      [contradiction |].
    rewrite to_u16_small by exact HRx. reflexivity.
  - intros w0 _. rewrite controller_exchange, Z.eqb_refl.
    rewrite to_u16_small by exact HRy. reflexivity.
  - lia.
  - nia.
  - nia.
  - exact HX.
  - exact HY.
Qed.

Lemma controller_read_coordinates_witness :
  exists w',
    run (controller (sample_config 1000) 3000 2000)
        (TP_Read_Coordinates (sample_config 1000) (0, 0)) idle
    = Done (to_u16 (x_pixel (sample_config 1000) (negate16 3000)),
            to_u16 (y_pixel (sample_config 1000) (negate16 2000)),
            TOUCHPAD_DATA_OK) w'.
Proof.
  apply controller_read_coordinates.
  - simpl. lia.
  - lia.
  - lia.
  - vm_compute. discriminate.
  - simpl. lia.
  - simpl. lia.
Defined.
